(** * chromatix: optical elements and their sequential composition

    A shallow embedding of

    - [chromatix/elements/sources.py]: the source elements [PointSource],
      [ObjectivePointSource], [PlaneWave], [GenericField] and
      [GaussianPlaneWave];
    - [chromatix/systems/optical_system.py]: the composer [OpticalSystem] and
      the factory [system_prop_lens_prop].

    Python values are a small dynamically typed universe; a call is a
    computation that threads an ambient world (whatever the callables of an
    element list can observe or change) and either returns a value or raises.
    Code of the package that the embedded functions call but that is not part
    of the embedded files (the [register] helper, the functional back ends and
    the elements [Propagate] and [ThinLens]) is a parameter of the
    embedding. *)

From Stdlib Require Import List String ZArith QArith Bool Lia.
Import ListNotations.

Open Scope string_scope.
Open Scope list_scope.

Set Warnings "-register-all".

(** ** Python values, exceptions and computations *)

Module Py.

(** A [jax.random] key, as handed to a generator callable. *)
Definition PRNGKey : Type := Z.

(** The samples of a [jax.Array]; a Python [float] is a binary64 number and
    is represented by its exact rational value. *)
Definition Array : Type := list Q.

Inductive Value : Type :=
  | VNone
  | VBool (b : bool)
  | VInt (i : Z)
  | VFloat (x : Q)
  | VStr (s : string)
  | VTuple (items : list Value)
  | VArray (a : Array)
  | VGenerator (g : PRNGKey -> Array)   (* Callable[[PRNGKey], Array] *)
  | VObject (id : nat).                 (* an object the embedding never opens:
                                         a Field, a pupil callable *)

Inductive Exn : Type :=
  | IndexError
  | TypeError
  | AttributeError
  | Exception (msg : string).

Inductive Result (A : Type) : Type :=
  | Ok (a : A)
  | Raise (e : Exn).
Arguments Ok {A} a.
Arguments Raise {A} e.

(** Keyword arguments, in the order written at the call. *)
Definition Kwargs : Type := list (string * Value).

(** A computation over the world [W]. *)
Definition M (W A : Type) : Type := W -> Result A * W.

Definition ret {W A} (a : A) : M W A := fun w => (Ok a, w).

Definition raise {W A} (e : Exn) : M W A := fun w => (Raise e, w).

Definition bind {W A B} (m : M W A) (k : A -> M W B) : M W B :=
  fun w =>
    match m w with
    | (Ok a, w') => k a w'
    | (Raise e, w') => (Raise e, w')
    end.

Definition lift {W A} (r : Result A) : M W A := fun w => (r, w).

(** What any Python callable is to its caller. *)
Definition Callable (W : Type) : Type := list Value -> Kwargs -> M W Value.

(** [getattr(obj, name)] of an object, as a lookup. *)
Definition Attrs : Type := string -> option Value.

(** Binding of the positional and keyword arguments of a call to the
    signature [f(self)]. *)
Definition bind_nothing (args : list Value) (kwargs : Kwargs) : Result unit :=
  match args, kwargs with
  | [], [] => Ok tt
  | _, _ => Raise TypeError
  end.

(** Binding of the positional and keyword arguments of a call to the
    signature [f(self, name)]. *)
Definition bind_one (name : string) (args : list Value) (kwargs : Kwargs)
  : Result Value :=
  match args, kwargs with
  | [v], [] => Ok v
  | [], [(k, v)] => if String.eqb k name then Ok v else Raise TypeError
  | _, _ => Raise TypeError
  end.

(** A parameter with a default: [None] when the caller omits it. *)
Definition default (d : Value) (given : option Value) : Value :=
  match given with
  | Some v => v
  | None => d
  end.

End Py.

Import Py.

Declare Scope py_scope.
Delimit Scope py_scope with py.
Notation "x <- m ;; k" := (bind m (fun x => k))
  (at level 100, m at next level, right associativity) : py_scope.
Open Scope py_scope.

(** ** Numeric constants of the source *)

(** [np.finfo(np.float32).eps]: binary32 carries a 24 bit significand, so the
    gap between 1.0 and the next number is [2^-(24-1)]. *)
Definition float32_nmant : Z := 23.
Definition finfo_float32_eps : Q := 1 # (2 ^ Z.to_pos float32_nmant).

(** The binary64 numbers written [1.0], [0.0] and [1e-3] in the source. *)
Definition float_1_0 : Q := 1.
Definition float_0_0 : Q := 0.
Definition float_1e_3 : Q := 1152921504606847 # 1152921504606846976.

(** ** Code of the package outside the embedded files *)

(** [Propagate] and [ThinLens] come from [chromatix.elements]; the embedded
    files only construct them, by keyword. *)
Module Propagate.
(** Modelled from the spec: the class [Propagate] is not among the embedded
    files; it is the element configured with a distance [z] and a medium
    index [n], which are the two keywords [system_prop_lens_prop] passes. *)
Record t : Type := new { z : Value; n : Value }.
End Propagate.

Module ThinLens.
(** Modelled from the spec: the class [ThinLens] is not among the embedded
    files; it is the element configured with a focal length [f], a medium
    index [n] and a numerical aperture [NA], which are the three keywords
    [system_prop_lens_prop] passes. *)
Record t : Type := new { f : Value; n : Value; NA : Value }.
End ThinLens.

(** The callees the embedded files import: [register] from
    [chromatix.elements.utils], the generators from
    [chromatix.functional.sources], and what calling a [Propagate] or a
    [ThinLens] does. Each may use the world and may raise. *)
Record Collaborators (W : Type) : Type := {
  register : Attrs -> string -> M W Value;
  point_source : list Value -> M W Value;
  objective_point_source : list Value -> M W Value;
  plane_wave : list Value -> M W Value;
  generic_field : list Value -> M W Value;
  gaussian_plane_wave : list Value -> M W Value;
  Propagate_call : Propagate.t -> Callable W;
  ThinLens_call : ThinLens.t -> Callable W
}.
Arguments register {W} _ _ _.
Arguments point_source {W} _ _.
Arguments objective_point_source {W} _ _.
Arguments plane_wave {W} _ _.
Arguments generic_field {W} _ _.
Arguments gaussian_plane_wave {W} _ _.
Arguments Propagate_call {W} _ _.
Arguments ThinLens_call {W} _ _.

(** [dict]-style lookup in the fields of a dataclass instance. *)
Fixpoint lookup (fields : list (string * Value)) (name : string) : option Value :=
  match fields with
  | [] => None
  | (k, v) :: rest => if String.eqb k name then Some v else lookup rest name
  end.

(** ** chromatix/elements/sources.py *)

Module PointSource.

Record t : Type := {
  shape : Value;
  dx : Value;
  spectrum : Value;
  spectral_density : Value;
  z : Value;
  n : Value;
  power : Value;
  amplitude : Value;
  pupil : Value;
  scalar : Value;
  epsilon : Value
}.

(** The dataclass constructor: six required fields, then the defaults
    [power = 1.0], [amplitude = 1.0], [pupil = None], [scalar = True] and
    [epsilon = float(np.finfo(np.float32).eps)]. *)
Definition new (shape dx spectrum spectral_density z n : Value)
  (power amplitude pupil scalar epsilon : option Value) : t :=
  {| shape := shape;
     dx := dx;
     spectrum := spectrum;
     spectral_density := spectral_density;
     z := z;
     n := n;
     power := default (VFloat float_1_0) power;
     amplitude := default (VFloat float_1_0) amplitude;
     pupil := default VNone pupil;
     scalar := default (VBool true) scalar;
     epsilon := default (VFloat finfo_float32_eps) epsilon |}.

Definition fields (self : t) : list (string * Value) :=
  [("shape", shape self); ("dx", dx self); ("spectrum", spectrum self);
   ("spectral_density", spectral_density self); ("z", z self); ("n", n self);
   ("power", power self); ("amplitude", amplitude self);
   ("pupil", pupil self); ("scalar", scalar self);
   ("epsilon", epsilon self)].

Definition getattr (self : t) : Attrs := lookup (fields self).

Definition __call__ {W} (C : Collaborators W) (self : t) : Callable W :=
  fun args kwargs =>
    _ <- lift (bind_nothing args kwargs) ;;
    power <- register C (getattr self) "power" ;;
    z <- register C (getattr self) "z" ;;
    n <- register C (getattr self) "n" ;;
    amplitude <- register C (getattr self) "amplitude" ;;
    point_source C
      [shape self; dx self; spectrum self; spectral_density self;
       z; n; power; amplitude; pupil self; scalar self; epsilon self].

End PointSource.

Module ObjectivePointSource.

Record t : Type := {
  shape : Value;
  dx : Value;
  spectrum : Value;
  spectral_density : Value;
  f : Value;
  n : Value;
  NA : Value;
  power : Value;
  amplitude : Value;
  offset : Value;
  scalar : Value
}.

(** Seven required fields, then [power = 1.0], [amplitude = 1.0],
    [offset = (0.0, 0.0)] and [scalar = True]. *)
Definition new (shape dx spectrum spectral_density f n NA : Value)
  (power amplitude offset scalar : option Value) : t :=
  {| shape := shape;
     dx := dx;
     spectrum := spectrum;
     spectral_density := spectral_density;
     f := f;
     n := n;
     NA := NA;
     power := default (VFloat float_1_0) power;
     amplitude := default (VFloat float_1_0) amplitude;
     offset := default (VTuple [VFloat float_0_0; VFloat float_0_0]) offset;
     scalar := default (VBool true) scalar |}.

Definition fields (self : t) : list (string * Value) :=
  [("shape", shape self); ("dx", dx self); ("spectrum", spectrum self);
   ("spectral_density", spectral_density self); ("f", f self); ("n", n self);
   ("NA", NA self); ("power", power self); ("amplitude", amplitude self);
   ("offset", offset self); ("scalar", scalar self)].

Definition getattr (self : t) : Attrs := lookup (fields self).

(** [__call__(self, z)]: the defocus [z] is a parameter of the call. *)
Definition __call__ {W} (C : Collaborators W) (self : t) : Callable W :=
  fun args kwargs =>
    z <- lift (bind_one "z" args kwargs) ;;
    f <- register C (getattr self) "f" ;;
    n <- register C (getattr self) "n" ;;
    NA <- register C (getattr self) "NA" ;;
    power <- register C (getattr self) "power" ;;
    amplitude <- register C (getattr self) "amplitude" ;;
    offset <- register C (getattr self) "offset" ;;
    objective_point_source C
      [shape self; dx self; spectrum self; spectral_density self;
       z; f; n; NA; power; amplitude; offset; scalar self].

End ObjectivePointSource.

Module PlaneWave.

Record t : Type := {
  shape : Value;
  dx : Value;
  spectrum : Value;
  spectral_density : Value;
  power : Value;
  amplitude : Value;
  kykx : Value;
  pupil : Value;
  scalar : Value
}.

Definition new (shape dx spectrum spectral_density : Value)
  (power amplitude kykx pupil scalar : option Value) : t :=
  {| shape := shape;
     dx := dx;
     spectrum := spectrum;
     spectral_density := spectral_density;
     power := default (VFloat float_1_0) power;
     amplitude := default (VFloat float_1_0) amplitude;
     kykx := default (VTuple [VFloat float_0_0; VFloat float_0_0]) kykx;
     pupil := default VNone pupil;
     scalar := default (VBool true) scalar |}.

Definition fields (self : t) : list (string * Value) :=
  [("shape", shape self); ("dx", dx self); ("spectrum", spectrum self);
   ("spectral_density", spectral_density self); ("power", power self);
   ("amplitude", amplitude self); ("kykx", kykx self);
   ("pupil", pupil self); ("scalar", scalar self)].

Definition getattr (self : t) : Attrs := lookup (fields self).

Definition __call__ {W} (C : Collaborators W) (self : t) : Callable W :=
  fun args kwargs =>
    _ <- lift (bind_nothing args kwargs) ;;
    kykx <- register C (getattr self) "kykx" ;;
    power <- register C (getattr self) "power" ;;
    amplitude <- register C (getattr self) "amplitude" ;;
    plane_wave C
      [shape self; dx self; spectrum self; spectral_density self;
       power; amplitude; kykx; pupil self; scalar self].

End PlaneWave.

Module GenericField.

Record t : Type := {
  dx : Value;
  spectrum : Value;
  spectral_density : Value;
  amplitude : Value;
  phase : Value;
  power : Value;
  pupil : Value;
  scalar : Value
}.

Definition new (dx spectrum spectral_density amplitude phase : Value)
  (power pupil scalar : option Value) : t :=
  {| dx := dx;
     spectrum := spectrum;
     spectral_density := spectral_density;
     amplitude := amplitude;
     phase := phase;
     power := default (VFloat float_1_0) power;
     pupil := default VNone pupil;
     scalar := default (VBool true) scalar |}.

Definition fields (self : t) : list (string * Value) :=
  [("dx", dx self); ("spectrum", spectrum self);
   ("spectral_density", spectral_density self);
   ("amplitude", amplitude self); ("phase", phase self);
   ("power", power self); ("pupil", pupil self); ("scalar", scalar self)].

Definition getattr (self : t) : Attrs := lookup (fields self).

Definition __call__ {W} (C : Collaborators W) (self : t) : Callable W :=
  fun args kwargs =>
    _ <- lift (bind_nothing args kwargs) ;;
    amplitude <- register C (getattr self) "amplitude" ;;
    phase <- register C (getattr self) "phase" ;;
    power <- register C (getattr self) "power" ;;
    generic_field C
      [dx self; spectrum self; spectral_density self;
       amplitude; phase; power; pupil self; scalar self].

End GenericField.

Module GaussianPlaneWave.

Record t : Type := {
  shape : Value;
  dx : Value;
  spectrum : Value;
  spectral_density : Value;
  waist : Value;
  power : Value;
  amplitude : Value;
  kykx : Value;
  pupil : Value;
  scalar : Value
}.

Definition new (shape dx spectrum spectral_density waist : Value)
  (power amplitude kykx pupil scalar : option Value) : t :=
  {| shape := shape;
     dx := dx;
     spectrum := spectrum;
     spectral_density := spectral_density;
     waist := waist;
     power := default (VFloat float_1_0) power;
     amplitude := default (VFloat float_1_0) amplitude;
     kykx := default (VTuple [VFloat float_0_0; VFloat float_0_0]) kykx;
     pupil := default VNone pupil;
     scalar := default (VBool true) scalar |}.

Definition fields (self : t) : list (string * Value) :=
  [("shape", shape self); ("dx", dx self); ("spectrum", spectrum self);
   ("spectral_density", spectral_density self); ("waist", waist self);
   ("power", power self); ("amplitude", amplitude self);
   ("kykx", kykx self); ("pupil", pupil self); ("scalar", scalar self)].

Definition getattr (self : t) : Attrs := lookup (fields self).

Definition __call__ {W} (C : Collaborators W) (self : t) : Callable W :=
  fun args kwargs =>
    _ <- lift (bind_nothing args kwargs) ;;
    kykx <- register C (getattr self) "kykx" ;;
    power <- register C (getattr self) "power" ;;
    amplitude <- register C (getattr self) "amplitude" ;;
    gaussian_plane_wave C
      [shape self; dx self; spectrum self; spectral_density self;
       waist self; power; amplitude; kykx; pupil self; scalar self].

End GaussianPlaneWave.

(** ** chromatix/systems/optical_system.py *)

(** The members of an element list are callables: instances of the element
    classes, or any other callable. *)
Inductive Element (W : Type) : Type :=
  | EPointSource (m : PointSource.t)
  | EObjectivePointSource (m : ObjectivePointSource.t)
  | EPlaneWave (m : PlaneWave.t)
  | EGenericField (m : GenericField.t)
  | EGaussianPlaneWave (m : GaussianPlaneWave.t)
  | EPropagate (m : Propagate.t)
  | EThinLens (m : ThinLens.t)
  | ECallable (f : Callable W).
Arguments EPointSource {W} m.
Arguments EObjectivePointSource {W} m.
Arguments EPlaneWave {W} m.
Arguments EGenericField {W} m.
Arguments EGaussianPlaneWave {W} m.
Arguments EPropagate {W} m.
Arguments EThinLens {W} m.
Arguments ECallable {W} f.

(** [element( ... )]: the call goes to the [__call__] of the class. *)
Definition call {W} (C : Collaborators W) (element : Element W) : Callable W :=
  match element with
  | EPointSource m => PointSource.__call__ C m
  | EObjectivePointSource m => ObjectivePointSource.__call__ C m
  | EPlaneWave m => PlaneWave.__call__ C m
  | EGenericField m => GenericField.__call__ C m
  | EGaussianPlaneWave m => GaussianPlaneWave.__call__ C m
  | EPropagate m => Propagate_call C m
  | EThinLens m => ThinLens_call C m
  | ECallable f => f
  end.

Module OpticalSystem.

Record t (W : Type) : Type := { elements : list (Element W) }.
Arguments elements {W} _.

(** The dataclass constructor [OpticalSystem(elements=...)]: the class
    declares the field and nothing that inspects it, so construction stores
    the sequence as given. *)
Definition new {W} (elements : list (Element W)) : Result (t W) :=
  Ok {| elements := elements |}.

(** [seq[0]] *)
Definition item0 {A} (seq : list A) : Result A :=
  match seq with
  | [] => Raise IndexError
  | x :: _ => Ok x
  end.

(** [seq[1:]] *)
Definition slice1 {A} (seq : list A) : list A :=
  match seq with
  | [] => []
  | _ :: rest => rest
  end.

(** [for element in rest: field = element(field)], then [return field]. *)
Fixpoint thread {W} (C : Collaborators W) (rest : list (Element W))
  (field : Value) : M W Value :=
  match rest with
  | [] => ret field
  | element :: rest' =>
      field' <- call C element [field] [] ;;
      thread C rest' field'
  end.

Definition __call__ {W} (C : Collaborators W) (self : t W) : Callable W :=
  fun args kwargs =>
    first <- lift (item0 (elements self)) ;;
    field <- call C first args kwargs ;;
    thread C (slice1 (elements self)) field.

End OpticalSystem.

(** [system_prop_lens_prop]: [shape], [dx] and [spectrum] are required; the
    other parameters default to [spectral_density = 1.0], [waist = 1e-3],
    [z1 = 1e-3], [z2 = 1e-3], [f = 1e-3], [n = 1.0], [power = 1.0] and
    [NA = None]. *)
Definition system_prop_lens_prop {W} (shape dx spectrum : Value)
  (spectral_density waist z1 z2 f n power NA : option Value)
  : Result (OpticalSystem.t W) :=
  let spectral_density := default (VFloat float_1_0) spectral_density in
  let waist := default (VFloat float_1e_3) waist in
  let z1 := default (VFloat float_1e_3) z1 in
  let z2 := default (VFloat float_1e_3) z2 in
  let f := default (VFloat float_1e_3) f in
  let n := default (VFloat float_1_0) n in
  let power := default (VFloat float_1_0) power in
  let NA := default VNone NA in
  OpticalSystem.new
    [EGaussianPlaneWave
       (GaussianPlaneWave.new shape dx spectrum spectral_density waist
          (Some power) None None None None);
     EPropagate (Propagate.new z1 n);
     EThinLens (ThinLens.new f n NA);
     EPropagate (Propagate.new z2 n)].

(** ** The registration collaborator, as the specification describes it *)

(** Modelled from the spec: [register] lives in [chromatix.elements.utils],
    outside the embedded files. An attribute is a concrete value or a
    generator callable; given a context the collaborator resolves it to a
    concrete value: [resolve(attr, context) -> value]. *)
Definition resolve (attr : Value) (context : PRNGKey) : Value :=
  match attr with
  | VGenerator g => VArray (g context)
  | v => v
  end.

Definition register_spec {W} (context : PRNGKey) (self : Attrs) (name : string)
  : M W Value :=
  match self name with
  | Some attr => ret (resolve attr context)
  | None => raise AttributeError
  end.

(** A value that is not a generator callable. *)
Definition concrete (v : Value) : bool :=
  match v with
  | VGenerator _ => false
  | _ => true
  end.

(** ** Observing the collaborators *)

(** What a call of a collaborator looks like from outside: [register] asked
    for [name] on a module where [getattr] finds [attr], and its outcome; a
    back end called with [args]. *)
Inductive Event : Type :=
  | Registered (name : string) (attr : option Value) (outcome : Result Value)
  | Called (callee : string) (args : list Value).

(** [observe C] behaves as [C] and writes down every call of [register] and
    of a source generator, in order. *)
Definition observe_generator {W} (callee : string) (g : list Value -> M W Value)
  : list Value -> M (W * list Event) Value :=
  fun args s =>
    let (r, w') := g args (fst s) in
    (r, (w', snd s ++ [Called callee args])).

Definition observe_register {W} (reg : Attrs -> string -> M W Value)
  : Attrs -> string -> M (W * list Event) Value :=
  fun self name s =>
    let (r, w') := reg self name (fst s) in
    (r, (w', snd s ++ [Registered name (self name) r])).

Definition observe_callable {W} (c : Callable W) : Callable (W * list Event) :=
  fun args kwargs s =>
    let (r, w') := c args kwargs (fst s) in (r, (w', snd s)).

Definition observe {W} (C : Collaborators W) : Collaborators (W * list Event) :=
  {| register := observe_register (register C);
     point_source := observe_generator "point_source" (point_source C);
     objective_point_source :=
       observe_generator "objective_point_source" (objective_point_source C);
     plane_wave := observe_generator "plane_wave" (plane_wave C);
     generic_field := observe_generator "generic_field" (generic_field C);
     gaussian_plane_wave :=
       observe_generator "gaussian_plane_wave" (gaussian_plane_wave C);
     Propagate_call := fun m => observe_callable (Propagate_call C m);
     ThinLens_call := fun m => observe_callable (ThinLens_call C m) |}.

(** Collaborators with no behaviour of their own beyond the registration the
    specification describes: every generator returns the same opaque field,
    [Propagate] and [ThinLens] hand their input on. *)
Definition a_field : Value := VObject 0.

Definition pass_through {W} : Callable W :=
  fun args kwargs => lift (bind_one "field" args kwargs).

Definition plain {W} (context : PRNGKey) : Collaborators W :=
  {| register := register_spec context;
     point_source := fun _ => ret a_field;
     objective_point_source := fun _ => ret a_field;
     plane_wave := fun _ => ret a_field;
     generic_field := fun _ => ret a_field;
     gaussian_plane_wave := fun _ => ret a_field;
     Propagate_call := fun _ => pass_through;
     ThinLens_call := fun _ => pass_through |}.

(** The events of one call of [element] under the observed [plain]
    collaborators. *)
Definition events_of (context : PRNGKey) (element : Element (unit * list Event))
  (args : list Value) (kwargs : Kwargs) : list Event :=
  snd (snd (call (observe (@plain unit context)) element args kwargs (tt, []))).

(** The argument lists the generators were called with. *)
Fixpoint generator_args (log : list Event) : list (list Value) :=
  match log with
  | [] => []
  | Called _ args :: rest => args :: generator_args rest
  | Registered _ _ _ :: rest => generator_args rest
  end.

(** The names [register] was asked for. *)
Fixpoint registered_names (log : list Event) : list string :=
  match log with
  | [] => []
  | Registered name _ _ :: rest => name :: registered_names rest
  | Called _ _ :: rest => registered_names rest
  end.

(** ** Observing the elements of a system *)

(** What one element saw and answered. *)
Record Invocation : Type := {
  who : nat;
  positional : list Value;
  keywords : Kwargs;
  returned : Result Value
}.

(** A callable that answers as [behaviour] does and appends its invocation
    to the log. *)
Definition probe (i : nat) (behaviour : list Value -> Kwargs -> Result Value)
  : Callable (list Invocation) :=
  fun args kwargs log =>
    (behaviour args kwargs,
     log ++ [{| who := i; positional := args; keywords := kwargs;
                returned := behaviour args kwargs |}]).

(** Probes numbered from [i] on. *)
Fixpoint probes (i : nat) (behaviours : list (list Value -> Kwargs -> Result Value))
  : list (Element (list Invocation)) :=
  match behaviours with
  | [] => []
  | b :: rest => ECallable (probe i b) :: probes (S i) rest
  end.

(** ** The contracts, in the specification's words *)

(** [field = e0( *args )], then [field = e1(field)], ..., [field = en(field)],
    and the final result. *)
Definition pipeline_spec {W} (C : Collaborators W) (e0 : Element W)
  (rest : list (Element W)) (args : list Value) (kwargs : Kwargs) : M W Value :=
  fold_left (fun field e => v <- field ;; call C e [v] []) rest
    (call C e0 args kwargs).

(** An element that neither reads nor writes the world. *)
Definition stateless {W} (C : Collaborators W) (e : Element W) : Prop :=
  forall args kwargs w,
    snd (call C e args kwargs w) = w /\
    forall w', fst (call C e args kwargs w') = fst (call C e args kwargs w).

(** What the elements after the first are seen to receive when the first
    returned [field]: one invocation per element, until one raises. *)
Fixpoint later_invocations (i : nat)
  (behaviours : list (list Value -> Kwargs -> Result Value)) (field : Value)
  : list Invocation :=
  match behaviours with
  | [] => []
  | b :: rest =>
      {| who := i; positional := [field]; keywords := [];
         returned := b [field] [] |}
      :: match b [field] [] with
         | Ok v => later_invocations (S i) rest v
         | Raise _ => []
         end
  end.

(** ** Sample elements *)

(** A source that returns [v] whatever it is called with. *)
Definition constant {W} (v : Value) : Element W :=
  ECallable (fun _ _ => ret v).

(** A stage that adds one to an integer and rejects anything else. *)
Definition successor {W} : Element W :=
  ECallable (fun args kwargs =>
    v <- lift (bind_one "field" args kwargs) ;;
    match v with
    | VInt i => ret (VInt (i + 1))
    | _ => raise TypeError
    end).

(** A stage that accepts whatever it is given and hands it on. *)
Definition identity {W} : Element W := ECallable pass_through.

(** A callable with a memory: it returns the number of times it was called
    before. *)
Definition ticking : Element nat :=
  ECallable (fun _ _ w => (Ok (VInt (Z.of_nat w)), S w)).

(** Whether every value the generators received in a run is concrete. *)
Definition all_resolved (log : list Event) : bool :=
  forallb (forallb concrete) (generator_args log).

(** A [GaussianPlaneWave] whose [waist] is supplied as a generator
    callable. *)
Definition generated_waist : GaussianPlaneWave.t :=
  GaussianPlaneWave.new (VTuple [VInt 256; VInt 256]) (VFloat float_1e_3)
    (VFloat float_1e_3) (VFloat float_1_0)
    (VGenerator (fun _ => [float_1e_3])) None None None None None.

(** ** Vocabulary for further properties *)

(** An [OpticalSystem] is itself a callable and can stand in an element
    list: calling it is calling its [__call__]. *)
Definition as_element {W} (C : Collaborators W) (inner : OpticalSystem.t W)
  : Element W :=
  ECallable (OpticalSystem.__call__ C inner).

(** The source elements whose [__call__] has no parameter besides [self]. *)
Definition takes_no_argument {W} (e : Element W) : bool :=
  match e with
  | EPointSource _ | EPlaneWave _ | EGenericField _ | EGaussianPlaneWave _ =>
      true
  | _ => false
  end.

(** The generator a source element is written to call. *)
Definition generator_of {W} (e : Element W) : option string :=
  match e with
  | EPointSource _ => Some "point_source"
  | EObjectivePointSource _ => Some "objective_point_source"
  | EPlaneWave _ => Some "plane_wave"
  | EGenericField _ => Some "generic_field"
  | EGaussianPlaneWave _ => Some "gaussian_plane_wave"
  | _ => None
  end.

Definition is_nil {A} (l : list A) : bool :=
  match l with
  | [] => true
  | _ :: _ => false
  end.

(** The shape of a well behaved run of a source element: registrations that
    succeed, ended by nothing, by a registration that raises, or by one call
    of the generator [name]. *)
Fixpoint source_protocol (name : string) (log : list Event) : bool :=
  match log with
  | [] => true
  | Registered _ _ (Ok _) :: rest => source_protocol name rest
  | Registered _ _ (Raise _) :: rest => is_nil rest
  | Called callee _ :: rest => String.eqb callee name && is_nil rest
  end.

(** Whether [getattr] found every attribute [register] was asked for. *)
Definition registrations_found (log : list Event) : bool :=
  forallb (fun ev =>
             match ev with
             | Registered _ None _ => false
             | _ => true
             end) log.

(** A computation that neither reads nor writes the world. *)
Definition stateless_m {W A} (m : M W A) : Prop :=
  forall w,
    snd (m w) = w /\ forall w', fst (m w') = fst (m w).

(** Collaborators that neither read nor write the world. *)
Definition stateless_collaborators {W} (C : Collaborators W) : Prop :=
  (forall self name, stateless_m (register C self name))
  /\ (forall a, stateless_m (point_source C a))
  /\ (forall a, stateless_m (objective_point_source C a))
  /\ (forall a, stateless_m (plane_wave C a))
  /\ (forall a, stateless_m (generic_field C a))
  /\ (forall a, stateless_m (gaussian_plane_wave C a))
  /\ (forall m args kwargs, stateless_m (Propagate_call C m args kwargs))
  /\ (forall m args kwargs, stateless_m (ThinLens_call C m args kwargs)).

(** An instance of one of the element classes, as opposed to an arbitrary
    callable. *)
Definition is_instance {W} (e : Element W) : bool :=
  match e with
  | ECallable _ => false
  | _ => true
  end.

(** What the last invocation of a log returned; [d] for an empty log. *)
Fixpoint last_outcome (d : Result Value) (log : list Invocation)
  : Result Value :=
  match log with
  | [] => d
  | inv :: rest => last_outcome (returned inv) rest
  end.

(** ** Pipelines of functions *)

(** What a stage that is a function of its arguments does. *)
Definition Behaviour : Type := list Value -> Kwargs -> Result Value.

(** [field = b(field)] for each behaviour in turn, until one raises. *)
Fixpoint thread_pure (bs : list Behaviour) (field : Value) : Result Value :=
  match bs with
  | [] => Ok field
  | b :: rest =>
      match b [field] [] with
      | Ok v => thread_pure rest v
      | Raise x => Raise x
      end
  end.

(** The value of a pipeline of behaviours: the first is applied to the
    arguments of the invocation, every later one to the value before it; an
    empty pipeline has no first stage to index. *)
Definition pipeline_pure (bs : list Behaviour) (args : list Value)
  (kwargs : Kwargs) : Result Value :=
  match bs with
  | [] => Raise IndexError
  | b0 :: rest =>
      match b0 args kwargs with
      | Ok v => thread_pure rest v
      | Raise x => Raise x
      end
  end.

(** What the element [e] answers when called in the world [w0]. *)
Definition behaviour_at {W} (C : Collaborators W) (w0 : W) (e : Element W)
  : Behaviour :=
  fun args kwargs => fst (call C e args kwargs w0).

(** * Properties *)

(** ** Laws of the computations *)

Section Laws.

Context {W : Type}.

Lemma bind_ret_l {A B} (a : A) (k : A -> M W B) (w : W) :
  bind (ret a) k w = k a w.
Proof. reflexivity. Qed.

Lemma bind_assoc {A B D} (m : M W A) (k : A -> M W B) (h : B -> M W D) (w : W) :
  bind (bind m k) h w = bind m (fun a => bind (k a) h) w.
Proof.
  unfold bind. destruct (m w) as [[a | e] w']; reflexivity.
Qed.

Lemma bind_ok {A B} (m : M W A) (k : A -> M W B) (w w' : W) (a : A) :
  m w = (Ok a, w') -> bind m k w = k a w'.
Proof. intros H. unfold bind. rewrite H. reflexivity. Qed.

Lemma bind_raise {A B} (m : M W A) (k : A -> M W B) (w w' : W) (e : Exn) :
  m w = (Raise e, w') -> bind m k w = (Raise e, w').
Proof. intros H. unfold bind. rewrite H. reflexivity. Qed.

Lemma bind_ext {A B} (m : M W A) (k k' : A -> M W B) (w : W) :
  (forall a w', k a w' = k' a w') -> bind m k w = bind m k' w.
Proof.
  intros H. unfold bind. destruct (m w) as [[a | e] w']; [apply H | reflexivity].
Qed.

End Laws.

(** ** The composer *)

Section Composer.

Context {W : Type} (C : Collaborators W).

Lemma call_cons (e0 : Element W) (rest : list (Element W))
  (args : list Value) (kwargs : Kwargs) (w : W) :
  OpticalSystem.__call__ C {| OpticalSystem.elements := e0 :: rest |} args kwargs w
  = bind (call C e0 args kwargs) (OpticalSystem.thread C rest) w.
Proof. reflexivity. Qed.

Lemma thread_app (pre post : list (Element W)) (field : Value) (w : W) :
  OpticalSystem.thread C (pre ++ post) field w
  = bind (OpticalSystem.thread C pre field) (OpticalSystem.thread C post) w.
Proof.
  revert field w. induction pre as [| e pre IH]; intros field w.
  - reflexivity.
  - cbn [app OpticalSystem.thread]. rewrite bind_assoc.
    apply bind_ext. intros v w'. apply IH.
Qed.

(** The loop of [__call__] is the left fold of the contract. *)
Lemma fold_thread (rest : list (Element W)) (m : M W Value) (w : W) :
  fold_left (fun field e => v <- field ;; call C e [v] []) rest m w
  = bind m (OpticalSystem.thread C rest) w.
Proof.
  revert m w. induction rest as [| e rest IH]; intros m w.
  - cbn [fold_left OpticalSystem.thread]. unfold bind, ret.
    destruct (m w) as [[v | x] w']; reflexivity.
  - cbn [fold_left OpticalSystem.thread]. rewrite IH. apply bind_assoc.
Qed.

Lemma call_app (e0 : Element W) (pre post : list (Element W))
  (args : list Value) (kwargs : Kwargs) (w : W) :
  OpticalSystem.__call__ C {| OpticalSystem.elements := e0 :: pre ++ post |}
    args kwargs w
  = bind (OpticalSystem.__call__ C {| OpticalSystem.elements := e0 :: pre |}
            args kwargs)
         (OpticalSystem.thread C post) w.
Proof.
  rewrite call_cons.
  transitivity
    (bind (bind (call C e0 args kwargs) (OpticalSystem.thread C pre))
       (OpticalSystem.thread C post) w).
  - rewrite bind_assoc. apply bind_ext. intros v w'. apply thread_app.
  - reflexivity.
Qed.

End Composer.

(** C1. For a non-empty element list [e0 :: rest] and any arguments, the
    invocation of [OpticalSystem] is the contract of the specification:
    [field = e0( *args )], then [field = e(field)] for each later element in
    order, and the final field is returned (keyword arguments, when there are
    any, go to [e0] with [args]). A list of one element returns what that
    element returns. *)
Theorem OpticalSystem_call_threads_field :
  forall (W : Type) (C : Collaborators W) (e0 : Element W)
         (rest : list (Element W)) (args : list Value) (kwargs : Kwargs)
         (w : W),
    OpticalSystem.__call__ C {| OpticalSystem.elements := e0 :: rest |} args [] w
    = pipeline_spec C e0 rest args [] w
    /\ OpticalSystem.__call__ C {| OpticalSystem.elements := e0 :: rest |}
         args kwargs w
       = pipeline_spec C e0 rest args kwargs w
    /\ OpticalSystem.__call__ C {| OpticalSystem.elements := [e0] |} args [] w
       = call C e0 args [] w.
Proof.
  intros W C e0 rest args kwargs w.
  assert (H : forall kw,
             OpticalSystem.__call__ C
               {| OpticalSystem.elements := e0 :: rest |} args kw w
             = pipeline_spec C e0 rest args kw w).
  { intros kw. unfold pipeline_spec. rewrite fold_thread. apply call_cons. }
  split; [apply H |]. split; [apply H |].
  rewrite call_cons. cbn [OpticalSystem.thread]. unfold bind, ret.
  destruct (call C e0 args [] w) as [[v | x] w']; reflexivity.
Qed.

(** C2. Whatever the arguments, [system_prop_lens_prop] returns an
    [OpticalSystem] whose elements are exactly four, in this order: a
    [GaussianPlaneWave] with the given [shape], [dx], [spectrum],
    [spectral_density], [waist] and [power] (its other fields at their
    defaults), a [Propagate] with [z = z1] and [n], a [ThinLens] with [f],
    [n] and [NA], and a [Propagate] with [z = z2] and [n]; a parameter the
    caller omits stands at its default. *)
Theorem system_prop_lens_prop_elements :
  forall (W : Type) (shape dx spectrum : Value)
         (spectral_density waist z1 z2 f n power NA : option Value),
  exists (g : GaussianPlaneWave.t) (p1 : Propagate.t) (l : ThinLens.t)
         (p2 : Propagate.t),
    @system_prop_lens_prop W shape dx spectrum
      spectral_density waist z1 z2 f n power NA
    = Ok {| OpticalSystem.elements :=
              [EGaussianPlaneWave g; EPropagate p1; EThinLens l; EPropagate p2] |}
    /\ GaussianPlaneWave.shape g = shape
    /\ GaussianPlaneWave.dx g = dx
    /\ GaussianPlaneWave.spectrum g = spectrum
    /\ GaussianPlaneWave.spectral_density g
       = default (VFloat float_1_0) spectral_density
    /\ GaussianPlaneWave.waist g = default (VFloat float_1e_3) waist
    /\ GaussianPlaneWave.power g = default (VFloat float_1_0) power
    /\ GaussianPlaneWave.amplitude g = VFloat float_1_0
    /\ GaussianPlaneWave.kykx g = VTuple [VFloat float_0_0; VFloat float_0_0]
    /\ GaussianPlaneWave.pupil g = VNone
    /\ GaussianPlaneWave.scalar g = VBool true
    /\ Propagate.z p1 = default (VFloat float_1e_3) z1
    /\ Propagate.n p1 = default (VFloat float_1_0) n
    /\ ThinLens.f l = default (VFloat float_1e_3) f
    /\ ThinLens.n l = default (VFloat float_1_0) n
    /\ ThinLens.NA l = default VNone NA
    /\ Propagate.z p2 = default (VFloat float_1e_3) z2
    /\ Propagate.n p2 = default (VFloat float_1_0) n.
Proof.
  intros. do 4 eexists. split; [reflexivity |].
  repeat split.
Qed.

(** C3, the claim as stated fails: constructing an [OpticalSystem] over the
    empty element list does not fail. *)
Lemma empty_system_is_constructed :
  ~ (exists e : Exn, @OpticalSystem.new unit [] = Raise e).
Proof. intros [e H]. discriminate H. Qed.

(** C3, amended. Constructing an [OpticalSystem] over the empty element list
    succeeds; the error shows at the invocation: every call of that system
    raises [IndexError] at [elements[0]], whatever the arguments, before any
    collaborator has run (the world is as it was). *)
Theorem empty_system_fails_when_called :
  forall (W : Type) (C : Collaborators W) (args : list Value)
         (kwargs : Kwargs) (w : W),
  exists sys : OpticalSystem.t W,
    OpticalSystem.new [] = Ok sys
    /\ OpticalSystem.__call__ C sys args kwargs w = (Raise IndexError, w).
Proof.
  intros. eexists. split; reflexivity.
Qed.

(** C7, the claim as stated fails: a first stage returns a string, which is
    no field, and nothing surfaces; the next stage accepts it and the
    invocation returns it. *)
Lemma non_field_value_raises_no_error :
  call (plain 0%Z) (constant (VStr "not a field")) [] [] tt
  = (Ok (VStr "not a field"), tt)
  /\ OpticalSystem.__call__ (plain 0%Z)
       {| OpticalSystem.elements :=
            [constant (VStr "not a field"); identity] |} [] [] tt
     = (Ok (VStr "not a field"), tt)
  /\ ~ (exists (x : Exn) (w : unit),
          OpticalSystem.__call__ (plain 0%Z)
            {| OpticalSystem.elements :=
                 [constant (VStr "not a field"); identity] |} [] [] tt
          = (Raise x, w)).
Proof.
  split; [reflexivity |]. split; [reflexivity |].
  intros (x & w & H). discriminate H.
Qed.

(** C7, amended. The composer neither checks nor converts an intermediate
    value, so a value that is no field raises nothing by itself. Whatever
    value [v] the stages [e0 :: pre] have produced, the next stage [e] is
    called with [v] itself as its only argument; an error surfaces only
    when a stage raises, and then the invocation ends there with that
    exception, and no later stage runs (the world is as the raising stage
    left it). *)
Theorem intermediate_value_passed_unchecked :
  forall (W : Type) (C : Collaborators W) (e0 e : Element W)
         (pre post : list (Element W)) (args : list Value) (kwargs : Kwargs)
         (w w' : W),
    (forall v : Value,
       OpticalSystem.__call__ C {| OpticalSystem.elements := e0 :: pre |}
         args kwargs w = (Ok v, w') ->
       OpticalSystem.__call__ C
         {| OpticalSystem.elements := e0 :: pre ++ e :: post |} args kwargs w
       = match call C e [v] [] w' with
         | (Ok v', w'') => OpticalSystem.thread C post v' w''
         | (Raise x, w'') => (Raise x, w'')
         end)
    /\ (forall x : Exn,
          OpticalSystem.__call__ C {| OpticalSystem.elements := e0 :: pre |}
            args kwargs w = (Raise x, w') ->
          OpticalSystem.__call__ C
            {| OpticalSystem.elements := e0 :: pre ++ post |} args kwargs w
          = (Raise x, w')).
Proof.
  intros W C e0 e pre post args kwargs w w'. split.
  - intros v H. rewrite call_app. rewrite (bind_ok _ _ _ _ _ H). reflexivity.
  - intros x H. rewrite call_app. apply (bind_raise _ _ _ _ _ H).
Qed.

Lemma intermediate_value_passed_unchecked_witness :
  (OpticalSystem.__call__ (plain 0%Z) {| OpticalSystem.elements := [constant (VStr "not a field")] |}
     [] [] tt = (Ok (VStr "not a field"), tt)
   /\ OpticalSystem.__call__ (plain 0%Z)
        {| OpticalSystem.elements :=
             constant (VStr "not a field") :: [] ++ successor :: [identity] |}
        [] [] tt
      = match call (plain 0%Z) successor [VStr "not a field"] [] tt with
        | (Ok v', w'') => OpticalSystem.thread (plain 0%Z) [identity] v' w''
        | (Raise x, w'') => (Raise x, w'')
        end)
  /\ (OpticalSystem.__call__ (plain 0%Z)
        {| OpticalSystem.elements := [constant (VStr "not a field"); successor] |}
        [] [] tt = (Raise TypeError, tt)
      /\ OpticalSystem.__call__ (plain 0%Z)
           {| OpticalSystem.elements :=
                constant (VStr "not a field") :: [successor] ++ [identity] |}
           [] [] tt
         = (Raise TypeError, tt)).
Proof.
  split.
  - split; [reflexivity |].
    apply (proj1 (intermediate_value_passed_unchecked unit (plain 0%Z)
                    (constant (VStr "not a field")) successor [] [identity]
                    [] [] tt tt)).
    reflexivity.
  - split; [reflexivity |].
    apply (proj2 (intermediate_value_passed_unchecked unit (plain 0%Z)
                    (constant (VStr "not a field")) successor [successor] [identity]
                    [] [] tt tt)).
    reflexivity.
Defined.

(** ** Statelessness of the composer *)

Section Stateless.

Context {W : Type} (C : Collaborators W).

Lemma thread_stateless (rest : list (Element W)) :
  Forall (stateless C) rest ->
  forall (field : Value) (w : W),
    snd (OpticalSystem.thread C rest field w) = w /\
    forall w', fst (OpticalSystem.thread C rest field w')
               = fst (OpticalSystem.thread C rest field w).
Proof.
  induction 1 as [| e rest He _ IH]; intros field w.
  - split; reflexivity.
  - cbn [OpticalSystem.thread]. unfold bind.
    destruct (He [field] [] w) as [Hw Hr].
    destruct (call C e [field] [] w) as [r w1] eqn:E. cbn in Hw. subst w1.
    split.
    + destruct r as [v | x]; [apply IH | reflexivity].
    + intros w'. specialize (Hr w').
      destruct (He [field] [] w') as [Hw' _].
      destruct (call C e [field] [] w') as [r' w1']. cbn in Hr, Hw'. subst.
      destruct r as [v | x]; [| reflexivity].
      destruct (IH v w) as [_ H]. apply H.
Qed.

Lemma system_stateless (self : OpticalSystem.t W) :
  Forall (stateless C) (OpticalSystem.elements self) ->
  forall (args : list Value) (kwargs : Kwargs) (w : W),
    snd (OpticalSystem.__call__ C self args kwargs w) = w /\
    forall w', fst (OpticalSystem.__call__ C self args kwargs w')
               = fst (OpticalSystem.__call__ C self args kwargs w).
Proof.
  destruct self as [[| e0 rest]]; cbn [OpticalSystem.elements]; intros H args kwargs w.
  - split; reflexivity.
  - inversion H as [| ? ? He Hrest]; subst.
    rewrite call_cons. unfold bind.
    destruct (He args kwargs w) as [Hw Hr].
    destruct (call C e0 args kwargs w) as [r w1] eqn:E. cbn in Hw. subst w1.
    split.
    + destruct r as [v | x]; [apply (thread_stateless rest Hrest) | reflexivity].
    + intros w'. rewrite call_cons. unfold bind. specialize (Hr w').
      destruct (He args kwargs w') as [Hw' _].
      destruct (call C e0 args kwargs w') as [r' w1']. cbn in Hr, Hw'. subst.
      destruct r as [v | x]; [| reflexivity].
      destruct (thread_stateless rest Hrest v w) as [_ H']. apply H'.
Qed.

End Stateless.

Section PureValue.

Context {W : Type} (C : Collaborators W).

Lemma thread_value (rest : list (Element W)) :
  Forall (stateless C) rest ->
  forall (field : Value) (w w0 : W),
    fst (OpticalSystem.thread C rest field w)
    = thread_pure (map (behaviour_at C w0) rest) field.
Proof.
  induction 1 as [| e rest He _ IH]; intros field w w0.
  - reflexivity.
  - cbn [OpticalSystem.thread map thread_pure]. unfold bind, behaviour_at at 1.
    destruct (He [field] [] w) as [_ Hr]. rewrite (Hr w0).
    destruct (call C e [field] [] w) as [[v | x] w1]; cbn [fst];
      [apply IH | reflexivity].
Qed.

Lemma system_value (self : OpticalSystem.t W) :
  Forall (stateless C) (OpticalSystem.elements self) ->
  forall (args : list Value) (kwargs : Kwargs) (w w0 : W),
    fst (OpticalSystem.__call__ C self args kwargs w)
    = pipeline_pure (map (behaviour_at C w0) (OpticalSystem.elements self))
        args kwargs.
Proof.
  destruct self as [[| e0 rest]]; cbn [OpticalSystem.elements];
    intros H args kwargs w w0.
  - reflexivity.
  - inversion H as [| ? ? He Hrest]; subst.
    rewrite call_cons. cbn [map pipeline_pure]. unfold bind, behaviour_at at 1.
    destruct (He args kwargs w) as [_ Hr]. rewrite (Hr w0).
    destruct (call C e0 args kwargs w) as [[v | x] w1]; cbn [fst];
      [apply (thread_value rest Hrest) | reflexivity].
Qed.

End PureValue.

(** C8, the claim as stated fails: over a callable with a memory, two
    invocations with the same arguments return different results, and the
    second has observed the first. *)
Lemma ticking_system_differs :
  let self := {| OpticalSystem.elements := [ticking] |} in
  let first := OpticalSystem.__call__ (plain 0%Z) self [] [] 0%nat in
  let second := OpticalSystem.__call__ (plain 0%Z) self [] [] (snd first) in
  fst first = Ok (VInt 0)
  /\ fst second = Ok (VInt 1)
  /\ fst second <> fst first
  /\ snd first <> 0%nat.
Proof.
  repeat split; try reflexivity; cbn; discriminate.
Qed.

(** C8, amended. The composer adds no state and no source of variation of
    its own. Over elements that are themselves functions of their arguments
    (they neither read nor write the world), the result of an invocation is
    the value of the pipeline of their behaviours, the first applied to the
    arguments and each later one to the value before it; an invocation leaves
    the world as it found it, a second invocation with the same arguments
    returns what the first returned, and the result is the same from
    whatever world the call starts. *)
Theorem OpticalSystem_call_deterministic_stateless :
  forall (W : Type) (C : Collaborators W) (self : OpticalSystem.t W),
    Forall (stateless C) (OpticalSystem.elements self) ->
    forall (args : list Value) (kwargs : Kwargs) (w w0 : W),
      let first := OpticalSystem.__call__ C self args kwargs w in
      let second := OpticalSystem.__call__ C self args kwargs (snd first) in
      fst first
      = pipeline_pure (map (behaviour_at C w0) (OpticalSystem.elements self))
          args kwargs
      /\ fst second = fst first
      /\ snd first = w
      /\ snd second = w
      /\ forall w' : W,
           fst (OpticalSystem.__call__ C self args kwargs w') = fst first.
Proof.
  intros W C self H args kwargs w w0 first second.
  destruct (system_stateless C self H args kwargs w) as [Hw Hr].
  subst second first. rewrite Hw.
  split; [apply system_value; exact H |]. repeat split; auto.
Qed.

Lemma constant_stateless {W} (C : Collaborators W) (v : Value) :
  stateless C (constant v).
Proof. intros args kwargs w. split; reflexivity. Qed.

Lemma successor_stateless {W} (C : Collaborators W) : stateless C successor.
Proof.
  intros args kwargs w. cbn. unfold bind, lift.
  destruct (bind_one "field" args kwargs) as [v | x]; [| split; reflexivity].
  destruct v; split; reflexivity.
Qed.

Lemma OpticalSystem_call_deterministic_stateless_witness :
  Forall (stateless (plain 0%Z)) [constant (VInt 41); @successor nat]
  /\ (let self :=
        {| OpticalSystem.elements := [constant (VInt 41); @successor nat] |} in
      let first := OpticalSystem.__call__ (plain 0%Z) self [] [] 7%nat in
      let second := OpticalSystem.__call__ (plain 0%Z) self [] [] (snd first) in
      fst first
      = pipeline_pure
          (map (behaviour_at (plain 0%Z) 0%nat) (OpticalSystem.elements self))
          [] []
      /\ fst second = fst first
      /\ snd first = 7%nat
      /\ snd second = 7%nat
      /\ forall w' : nat,
           fst (OpticalSystem.__call__ (plain 0%Z) self [] [] w') = fst first)
  /\ fst (OpticalSystem.__call__ (plain 0%Z)
            {| OpticalSystem.elements := [constant (VInt 41); @successor nat] |}
            [] [] 7%nat)
     = Ok (VInt 42).
Proof.
  assert (H : Forall (stateless (@plain nat 0%Z))
                [constant (VInt 41); @successor nat]).
  { apply Forall_cons; [apply constant_stateless |].
    apply Forall_cons; [apply successor_stateless | apply Forall_nil]. }
  split; [exact H |]. split; [| reflexivity].
  exact (OpticalSystem_call_deterministic_stateless nat (plain 0%Z)
           {| OpticalSystem.elements := [constant (VInt 41); successor] |}
           H [] [] 7%nat 0%nat).
Defined.

(** ** What the elements of a system are called with *)

Section Probes.

Context (C : Collaborators (list Invocation)).

Lemma thread_probes (bs : list (list Value -> Kwargs -> Result Value)) :
  forall (i : nat) (field : Value) (log : list Invocation),
    snd (OpticalSystem.thread C (probes i bs) field log)
    = log ++ later_invocations i bs field.
Proof.
  induction bs as [| b bs IH]; intros i field log.
  - cbn. symmetry. apply app_nil_r.
  - cbn [probes OpticalSystem.thread later_invocations call].
    unfold bind, probe.
    destruct (b [field] []) as [v | x].
    + rewrite IH. rewrite <- app_assoc. reflexivity.
    + reflexivity.
Qed.

Lemma call_probes (b0 : list Value -> Kwargs -> Result Value)
  (bs : list (list Value -> Kwargs -> Result Value))
  (args : list Value) (kwargs : Kwargs) :
  snd (OpticalSystem.__call__ C
         {| OpticalSystem.elements := probes 0 (b0 :: bs) |} args kwargs [])
  = {| who := 0; positional := args; keywords := kwargs;
       returned := b0 args kwargs |}
    :: match b0 args kwargs with
       | Ok v => later_invocations 1 bs v
       | Raise _ => []
       end.
Proof.
  cbn [probes]. rewrite call_cons. cbn [call]. unfold bind, probe.
  destruct (b0 args kwargs) as [v | x].
  - rewrite thread_probes. reflexivity.
  - reflexivity.
Qed.

End Probes.

Lemma later_invocations_nth (bs : list (list Value -> Kwargs -> Result Value)) :
  forall (i : nat) (field : Value) (j : nat) (inv : Invocation),
    nth_error (later_invocations i bs field) j = Some inv ->
    who inv = (i + j)%nat /\ keywords inv = [] /\
    ((j = 0%nat /\ positional inv = [field]) \/
     (exists (j' : nat) (prev : Invocation) (u : Value),
        j = S j' /\
        nth_error (later_invocations i bs field) j' = Some prev /\
        returned prev = Ok u /\ positional inv = [u])).
Proof.
  induction bs as [| b bs IH]; intros i field j inv H.
  - destruct j; discriminate H.
  - cbn [later_invocations] in *. destruct j as [| j].
    + cbn in H. injection H as <-. cbn. repeat split; auto.
    + cbn [nth_error] in H.
      destruct (b [field] []) as [v | x] eqn:E;
        [| destruct j; discriminate H].
      destruct (IH (S i) v j inv H) as (Hwho & Hkw & Hpos).
      split; [rewrite Hwho; lia |]. split; [exact Hkw |].
      right. destruct Hpos as [[-> Hp] | (j' & prev & u & -> & Hn & Hr & Hp)].
      * exists 0%nat, {| who := i; positional := [field]; keywords := [];
                        returned := b [field] [] |}, v.
        cbn. rewrite E. auto.
      * exists (S j'), prev, u. cbn [nth_error]. auto.
Qed.

Lemma later_invocations_next
  (bs : list (list Value -> Kwargs -> Result Value)) :
  forall (i : nat) (field : Value) (j : nat) (prev : Invocation) (v : Value),
    nth_error (later_invocations i bs field) j = Some prev ->
    returned prev = Ok v ->
    (S j < List.length bs)%nat ->
    exists (inv : Invocation) (b : list Value -> Kwargs -> Result Value),
      nth_error (later_invocations i bs field) (S j) = Some inv
      /\ who inv = (i + S j)%nat /\ positional inv = [v]
      /\ keywords inv = [] /\ nth_error bs (S j) = Some b
      /\ returned inv = b [v] [].
Proof.
  induction bs as [| b bs IH]; intros i field j prev v H Hret Hlt.
  - destruct j; discriminate H.
  - cbn [later_invocations] in *. destruct j as [| j].
    + injection H as <-. cbn [returned] in Hret. rewrite Hret.
      destruct bs as [| b' bs]; [cbn in Hlt; lia |].
      cbn [later_invocations nth_error].
      eexists; exists b'. split; [reflexivity |].
      cbn [who positional keywords returned].
      repeat split; auto. lia.
    + cbn [nth_error] in H |- *.
      destruct (b [field] []) as [u | x]; [| destruct j; discriminate H].
      assert (Hlt' : (S j < List.length bs)%nat) by (cbn in Hlt; lia).
      destruct (IH (S i) u j prev v H Hret Hlt')
        as (inv & b' & Hn & Hwho & Hpos & Hkw & Hb & Hr).
      exists inv, b'. repeat split; auto. rewrite Hwho. lia.
Qed.

(** C9. Seen from the elements: the first element is called with the
    positional and the keyword arguments of the invocation; every element
    after it is called with one positional argument, the value the element
    before it returned, and with no keyword argument; and no later element
    is left out: whenever an element has returned, the element after it in
    the list is called, in this way. *)
Theorem OpticalSystem_call_forwards_arguments_to_first_only :
  forall (C : Collaborators (list Invocation))
         (b0 : list Value -> Kwargs -> Result Value)
         (bs : list (list Value -> Kwargs -> Result Value))
         (args : list Value) (kwargs : Kwargs),
    let log :=
      snd (OpticalSystem.__call__ C
             {| OpticalSystem.elements := probes 0 (b0 :: bs) |}
             args kwargs []) in
    nth_error log 0
    = Some {| who := 0; positional := args; keywords := kwargs;
              returned := b0 args kwargs |}
    /\ (forall (i : nat) (inv : Invocation),
          nth_error log (S i) = Some inv ->
          who inv = S i /\ keywords inv = [] /\
          exists (prev : Invocation) (v : Value),
            nth_error log i = Some prev /\ returned prev = Ok v /\
            positional inv = [v])
    /\ (forall (i : nat) (prev : Invocation) (v : Value),
          nth_error log i = Some prev ->
          returned prev = Ok v ->
          (i < List.length bs)%nat ->
          exists (inv : Invocation)
                 (b : list Value -> Kwargs -> Result Value),
            nth_error log (S i) = Some inv /\ who inv = S i
            /\ positional inv = [v] /\ keywords inv = []
            /\ nth_error bs i = Some b /\ returned inv = b [v] []).
Proof.
  intros C b0 bs args kwargs log. subst log. rewrite call_probes.
  split; [reflexivity |]. split.
  - intros i inv H. cbn [nth_error] in H.
    destruct (b0 args kwargs) as [v | x] eqn:E;
      [| destruct i; discriminate H].
    destruct (later_invocations_nth bs 1 v i inv H) as (Hwho & Hkw & Hpos).
    split; [exact Hwho |]. split; [exact Hkw |].
    destruct Hpos as [[-> Hp] | (j' & prev & u & -> & Hn & Hr & Hp)].
    + eexists; exists v. cbn [nth_error]. split; [reflexivity |].
      cbn. auto.
    + exists prev, u. cbn [nth_error]. auto.
  - intros i prev v H Hret Hlt. destruct i as [| i].
    + injection H as <-. cbn [returned] in Hret. rewrite Hret.
      destruct bs as [| b bs]; [cbn in Hlt; lia |].
      cbn [later_invocations nth_error].
      eexists; exists b. split; [reflexivity |].
      cbn [who positional keywords returned]. repeat split; auto.
    + cbn [nth_error] in H |- *.
      destruct (b0 args kwargs) as [v0 | x];
        [| destruct i; discriminate H].
      destruct (later_invocations_next bs 1 v0 i prev v H Hret Hlt)
        as (inv & b & Hn & Hwho & Hpos & Hkw & Hb & Hr).
      exists inv, b. repeat split; auto.
Qed.

Lemma OpticalSystem_call_forwards_arguments_to_first_only_witness :
  let b0 : list Value -> Kwargs -> Result Value := fun _ _ => Ok (VInt 1) in
  let b1 : list Value -> Kwargs -> Result Value := fun _ _ => Ok (VInt 2) in
  let b2 : list Value -> Kwargs -> Result Value :=
    fun args _ => Ok (VTuple args) in
  let log :=
    snd (OpticalSystem.__call__ (plain 0%Z)
           {| OpticalSystem.elements := probes 0 [b0; b1; b2] |}
           [VFloat float_1e_3] [("z", VInt 5)] []) in
  let second := {| who := 1; positional := [VInt 1]; keywords := [];
                   returned := Ok (VInt 2) |} in
  (nth_error log 1 = Some second
   /\ (who second = 1%nat /\ keywords second = [] /\
       exists (prev : Invocation) (v : Value),
         nth_error log 0 = Some prev /\ returned prev = Ok v /\
         positional second = [v]))
  /\ (nth_error log 1 = Some second
      /\ returned second = Ok (VInt 2)
      /\ (1 < List.length [b1; b2])%nat
      /\ exists (inv : Invocation)
                (b : list Value -> Kwargs -> Result Value),
           nth_error log 2 = Some inv /\ who inv = 2%nat
           /\ positional inv = [VInt 2] /\ keywords inv = []
           /\ nth_error [b1; b2] 1 = Some b
           /\ returned inv = b [VInt 2] []).
Proof.
  intros b0 b1 b2 log second.
  pose proof (OpticalSystem_call_forwards_arguments_to_first_only
                (plain 0%Z) b0 [b1; b2] [VFloat float_1e_3] [("z", VInt 5)])
    as (_ & Hlater & Hnext).
  split.
  - split; [reflexivity |]. apply (Hlater 0%nat second). reflexivity.
  - split; [reflexivity |]. split; [reflexivity |].
    assert (Hlt : (1 < List.length [b1; b2])%nat) by (cbn; lia).
    split; [exact Hlt |].
    apply (Hnext 1%nat second (VInt 2)); [reflexivity | reflexivity | exact Hlt].
Defined.

(** ** What the source elements hand to their collaborators *)

(** One step of a run under [observe]: case on the outcome of the next call
    of a collaborator. *)
Ltac settle_log := cbn [fst snd app registered_names generator_args In].

Ltac next_call :=
  match goal with
  | |- context [register ?C ?s ?n ?w] =>
      let r := fresh "r" in
      let w' := fresh "w" in
      destruct (register C s n w) as [[r | r] w']; settle_log
  | |- context [point_source ?C ?a ?w] =>
      let r := fresh "r" in
      let w' := fresh "w" in
      destruct (point_source C a w) as [[r | r] w']; settle_log
  | |- context [objective_point_source ?C ?a ?w] =>
      let r := fresh "r" in
      let w' := fresh "w" in
      destruct (objective_point_source C a w) as [[r | r] w']; settle_log
  end.

Ltac observed :=
  cbn [observe register point_source objective_point_source];
  unfold observe_register, observe_generator; settle_log.

(** C10. [epsilon] is a field of [PointSource], set per element at
    construction; left out, it is the machine epsilon of binary32, [2^-23].
    Under any collaborators, a call never asks [register] for ["epsilon"],
    and whenever it reaches [point_source] the eleventh and last argument is
    the field [epsilon] as it stands: the value given at construction, or the
    default; a call that returns has called [point_source] exactly once. *)
Theorem PointSource_epsilon_passed_unchanged :
  (forall (shape dx spectrum spectral_density z n : Value)
          (power amplitude pupil scalar : option Value),
     PointSource.epsilon
       (PointSource.new shape dx spectrum spectral_density z n
          power amplitude pupil scalar None)
     = VFloat finfo_float32_eps)
  /\ (forall (shape dx spectrum spectral_density z n : Value)
             (power amplitude pupil scalar : option Value) (eps : Value),
        PointSource.epsilon
          (PointSource.new shape dx spectrum spectral_density z n
             power amplitude pupil scalar (Some eps))
        = eps)
  /\ finfo_float32_eps = (1 # 8388608)%Q
  /\ (forall self : PointSource.t,
        PointSource.getattr self "epsilon" = Some (PointSource.epsilon self))
  /\ (forall (W : Type) (C : Collaborators W) (self : PointSource.t)
             (args : list Value) (kwargs : Kwargs) (w : W),
        let out := PointSource.__call__ (observe C) self args kwargs (w, []) in
        let log := snd (snd out) in
        ~ In "epsilon" (registered_names log)
        /\ (forall args' : list Value,
              In args' (generator_args log) ->
              nth_error args' 10 = Some (PointSource.epsilon self)
              /\ List.length args' = 11%nat)
        /\ (forall v : Value,
              fst out = Ok v -> exists args' : list Value,
                generator_args log = [args']))
  /\ (forall (W : Type) (C : Collaborators W)
             (shape dx spectrum spectral_density z n : Value)
             (power amplitude pupil scalar epsilon : option Value)
             (args : list Value) (kwargs : Kwargs) (w : W)
             (args' : list Value),
        In args'
          (generator_args
             (snd (snd (PointSource.__call__ (observe C)
                          (PointSource.new shape dx spectrum spectral_density
                             z n power amplitude pupil scalar epsilon)
                          args kwargs (w, [])))))
        -> nth_error args' 10
           = Some (default (VFloat finfo_float32_eps) epsilon)).
Proof.
  assert (Hcall :
            forall (W : Type) (C : Collaborators W) (self : PointSource.t)
                   (args : list Value) (kwargs : Kwargs) (w : W),
              let out :=
                PointSource.__call__ (observe C) self args kwargs (w, []) in
              let log := snd (snd out) in
              ~ In "epsilon" (registered_names log)
              /\ (forall args' : list Value,
                    In args' (generator_args log) ->
                    nth_error args' 10 = Some (PointSource.epsilon self)
                    /\ List.length args' = 11%nat)
              /\ (forall v : Value,
                    fst out = Ok v -> exists args' : list Value,
                      generator_args log = [args'])).
  { intros W C self args kwargs w out log. subst log out.
    unfold PointSource.__call__, bind, lift.
    set (attrs := PointSource.getattr self). clearbody attrs.
    destruct (bind_nothing args kwargs) as [[] | x]; [observed | settle_log];
      repeat next_call;
      (split; [intuition discriminate |]);
      (split; [intros args' H; try contradiction
              | intros v H; try discriminate H]).
    all: try (destruct H as [<- | []]; split; reflexivity).
    all: eexists; reflexivity. }
  split; [reflexivity |]. split; [reflexivity |]. split; [reflexivity |].
  split; [reflexivity |]. split; [exact Hcall |].
  intros W C shape dx spectrum spectral_density z n power amplitude pupil
    scalar epsilon args kwargs w args' H.
  apply (Hcall W C _ args kwargs w) in H. exact (proj1 H).
Qed.

Lemma PointSource_epsilon_passed_unchanged_witness :
  let self :=
    PointSource.new (VTuple [VInt 256; VInt 256]) (VFloat float_1e_3)
      (VFloat float_1e_3) (VFloat float_1_0) (VFloat float_1_0)
      (VFloat float_1_0) None None None None (Some (VFloat float_1e_3)) in
  let out := PointSource.__call__ (observe (@plain unit 0%Z)) self [] [] (tt, []) in
  let log := snd (snd out) in
  let passed :=
    [VTuple [VInt 256; VInt 256]; VFloat float_1e_3; VFloat float_1e_3;
     VFloat float_1_0; VFloat float_1_0; VFloat float_1_0; VFloat float_1_0;
     VFloat float_1_0; VNone; VBool true; VFloat float_1e_3] in
  In passed (generator_args log)
  /\ fst out = Ok a_field
  /\ nth_error passed 10 = Some (PointSource.epsilon self)
  /\ nth_error passed 10
     = Some (default (VFloat finfo_float32_eps) (Some (VFloat float_1e_3)))
  /\ exists args' : list Value, generator_args log = [args'].
Proof.
  intros self out log passed.
  destruct PointSource_epsilon_passed_unchanged
    as (_ & _ & _ & _ & Hcall & Hnew).
  pose proof (Hcall unit (plain 0%Z) self [] [] tt) as (_ & Hargs & Hret).
  assert (Hin : In passed (generator_args log)) by (left; reflexivity).
  split; [exact Hin |]. split; [reflexivity |].
  split; [exact (proj1 (Hargs _ Hin)) |].
  split; [| exact (Hret a_field eq_refl)].
  exact (Hnew unit (plain 0%Z) (VTuple [VInt 256; VInt 256])
           (VFloat float_1e_3) (VFloat float_1e_3) (VFloat float_1_0)
           (VFloat float_1_0) (VFloat float_1_0) None None None None
           (Some (VFloat float_1e_3)) [] [] tt passed Hin).
Defined.

(** C5. [ObjectivePointSource] has no field [z]: the defocus is the argument
    of each call, positional or by keyword. Under any collaborators, whenever
    a call with [z] reaches [objective_point_source], the fifth argument is
    that [z]; a call that returns has asked [register] for the configured
    [f], [n], [NA], [power], [amplitude] and [offset], in this order, and has
    called [objective_point_source] once, with the four sampling fields, [z],
    the six registered values and [scalar]. *)
Theorem ObjectivePointSource_z_supplied_per_call :
  forall (W : Type) (C : Collaborators W) (self : ObjectivePointSource.t)
         (z : Value) (w : W),
    ObjectivePointSource.getattr self "z" = None
    /\ ObjectivePointSource.__call__ C self [] [("z", z)] w
       = ObjectivePointSource.__call__ C self [z] [] w
    /\ let out :=
         ObjectivePointSource.__call__ (observe C) self [z] [] (w, []) in
       let log := snd (snd out) in
       (forall args' : list Value,
          In args' (generator_args log) -> nth_error args' 4 = Some z)
       /\ (forall v : Value,
             fst out = Ok v ->
             exists f n NA power amplitude offset : Value,
               log =
               [Registered "f" (Some (ObjectivePointSource.f self)) (Ok f);
                Registered "n" (Some (ObjectivePointSource.n self)) (Ok n);
                Registered "NA" (Some (ObjectivePointSource.NA self)) (Ok NA);
                Registered "power"
                  (Some (ObjectivePointSource.power self)) (Ok power);
                Registered "amplitude"
                  (Some (ObjectivePointSource.amplitude self)) (Ok amplitude);
                Registered "offset"
                  (Some (ObjectivePointSource.offset self)) (Ok offset);
                Called "objective_point_source"
                  [ObjectivePointSource.shape self;
                   ObjectivePointSource.dx self;
                   ObjectivePointSource.spectrum self;
                   ObjectivePointSource.spectral_density self;
                   z; f; n; NA; power; amplitude; offset;
                   ObjectivePointSource.scalar self]]).
Proof.
  intros W C self z w.
  split; [reflexivity |]. split; [reflexivity |].
  intros out log. subst log out.
  unfold ObjectivePointSource.__call__, bind, lift.
  cbn [bind_one].
  remember (ObjectivePointSource.getattr self) as attrs eqn:Hattrs.
  observed. repeat next_call.
  all: split; [intros args' H; try contradiction | intros v H; try discriminate H].
  all: try (destruct H as [<- | []]; reflexivity).
  subst attrs. do 6 eexists. reflexivity.
Qed.

Lemma ObjectivePointSource_z_supplied_per_call_witness :
  let self :=
    ObjectivePointSource.new (VTuple [VInt 256; VInt 256]) (VFloat float_1e_3)
      (VFloat float_1e_3) (VFloat float_1_0) (VFloat float_1e_3)
      (VFloat float_1_0) (VFloat float_1_0) None None None None in
  let z := VFloat float_1e_3 in
  let out :=
    ObjectivePointSource.__call__ (observe (@plain unit 0%Z)) self [z] []
      (tt, []) in
  fst out = Ok a_field
  /\ exists args' : list Value,
       In args' (generator_args (snd (snd out)))
       /\ nth_error args' 4 = Some z.
Proof.
  intros self z out.
  pose proof (proj2 (proj2 (ObjectivePointSource_z_supplied_per_call
                              unit (plain 0%Z) self z tt))) as (Hz & _).
  split; [reflexivity |].
  eexists. split; [left; reflexivity |].
  apply Hz. left; reflexivity.
Defined.

(** C6, the claim as stated fails: the [waist] of a [GaussianPlaneWave] is a
    scalar valued attribute; supplied as a generator callable it reaches
    [gaussian_plane_wave] as the callable, not as a concrete value. *)
Lemma waist_generator_is_not_resolved :
  all_resolved (events_of 0%Z (EGaussianPlaneWave generated_waist) [] []) = false
  /\ exists (args : list Value) (g : PRNGKey -> Array),
       generator_args (events_of 0%Z (EGaussianPlaneWave generated_waist) [] [])
       = [args]
       /\ GaussianPlaneWave.waist generated_waist = VGenerator g
       /\ nth_error args 4 = Some (VGenerator g).
Proof.
  split; [reflexivity |].
  do 2 eexists. split; [reflexivity |]. split; reflexivity.
Qed.

(** C6, amended. With the registration the specification describes, each
    source element resolves the attributes its call hands to [register], and
    only those, before the generator runs: [power], [z], [n], [amplitude] of a
    [PointSource]; [f], [n], [NA], [power], [amplitude], [offset] of an
    [ObjectivePointSource]; [kykx], [power], [amplitude] of a [PlaneWave];
    [amplitude], [phase], [power] of a [GenericField]; [kykx], [power],
    [amplitude] of a [GaussianPlaneWave]. Such an attribute may be a concrete
    value, which stands for itself, or a generator callable, which is
    replaced by what it generates; every other attribute reaches the
    generator as it was supplied. *)
Theorem registered_attributes_are_resolved :
  forall context : PRNGKey,
    (forall v : Value, concrete (resolve v context) = true)
    /\ (forall v : Value, concrete v = true -> resolve v context = v)
    /\ (forall self : PointSource.t,
          events_of context (EPointSource self) [] [] =
          let power := resolve (PointSource.power self) context in
          let z := resolve (PointSource.z self) context in
          let n := resolve (PointSource.n self) context in
          let amplitude := resolve (PointSource.amplitude self) context in
          [Registered "power" (Some (PointSource.power self)) (Ok power);
           Registered "z" (Some (PointSource.z self)) (Ok z);
           Registered "n" (Some (PointSource.n self)) (Ok n);
           Registered "amplitude" (Some (PointSource.amplitude self))
             (Ok amplitude);
           Called "point_source"
             [PointSource.shape self; PointSource.dx self;
              PointSource.spectrum self; PointSource.spectral_density self;
              z; n; power; amplitude; PointSource.pupil self;
              PointSource.scalar self; PointSource.epsilon self]])
    /\ (forall (self : ObjectivePointSource.t) (z : Value),
          events_of context (EObjectivePointSource self) [z] [] =
          let f := resolve (ObjectivePointSource.f self) context in
          let n := resolve (ObjectivePointSource.n self) context in
          let NA := resolve (ObjectivePointSource.NA self) context in
          let power := resolve (ObjectivePointSource.power self) context in
          let amplitude :=
            resolve (ObjectivePointSource.amplitude self) context in
          let offset := resolve (ObjectivePointSource.offset self) context in
          [Registered "f" (Some (ObjectivePointSource.f self)) (Ok f);
           Registered "n" (Some (ObjectivePointSource.n self)) (Ok n);
           Registered "NA" (Some (ObjectivePointSource.NA self)) (Ok NA);
           Registered "power" (Some (ObjectivePointSource.power self))
             (Ok power);
           Registered "amplitude" (Some (ObjectivePointSource.amplitude self))
             (Ok amplitude);
           Registered "offset" (Some (ObjectivePointSource.offset self))
             (Ok offset);
           Called "objective_point_source"
             [ObjectivePointSource.shape self; ObjectivePointSource.dx self;
              ObjectivePointSource.spectrum self;
              ObjectivePointSource.spectral_density self;
              z; f; n; NA; power; amplitude; offset;
              ObjectivePointSource.scalar self]])
    /\ (forall self : PlaneWave.t,
          events_of context (EPlaneWave self) [] [] =
          let kykx := resolve (PlaneWave.kykx self) context in
          let power := resolve (PlaneWave.power self) context in
          let amplitude := resolve (PlaneWave.amplitude self) context in
          [Registered "kykx" (Some (PlaneWave.kykx self)) (Ok kykx);
           Registered "power" (Some (PlaneWave.power self)) (Ok power);
           Registered "amplitude" (Some (PlaneWave.amplitude self))
             (Ok amplitude);
           Called "plane_wave"
             [PlaneWave.shape self; PlaneWave.dx self; PlaneWave.spectrum self;
              PlaneWave.spectral_density self; power; amplitude; kykx;
              PlaneWave.pupil self; PlaneWave.scalar self]])
    /\ (forall self : GenericField.t,
          events_of context (EGenericField self) [] [] =
          let amplitude := resolve (GenericField.amplitude self) context in
          let phase := resolve (GenericField.phase self) context in
          let power := resolve (GenericField.power self) context in
          [Registered "amplitude" (Some (GenericField.amplitude self))
             (Ok amplitude);
           Registered "phase" (Some (GenericField.phase self)) (Ok phase);
           Registered "power" (Some (GenericField.power self)) (Ok power);
           Called "generic_field"
             [GenericField.dx self; GenericField.spectrum self;
              GenericField.spectral_density self; amplitude; phase; power;
              GenericField.pupil self; GenericField.scalar self]])
    /\ (forall self : GaussianPlaneWave.t,
          events_of context (EGaussianPlaneWave self) [] [] =
          let kykx := resolve (GaussianPlaneWave.kykx self) context in
          let power := resolve (GaussianPlaneWave.power self) context in
          let amplitude := resolve (GaussianPlaneWave.amplitude self) context in
          [Registered "kykx" (Some (GaussianPlaneWave.kykx self)) (Ok kykx);
           Registered "power" (Some (GaussianPlaneWave.power self)) (Ok power);
           Registered "amplitude" (Some (GaussianPlaneWave.amplitude self))
             (Ok amplitude);
           Called "gaussian_plane_wave"
             [GaussianPlaneWave.shape self; GaussianPlaneWave.dx self;
              GaussianPlaneWave.spectrum self;
              GaussianPlaneWave.spectral_density self;
              GaussianPlaneWave.waist self; power; amplitude; kykx;
              GaussianPlaneWave.pupil self; GaussianPlaneWave.scalar self]]).
Proof.
  intros context.
  split; [intros v; destruct v; reflexivity |].
  split; [intros v H; destruct v; try reflexivity; discriminate H |].
  repeat split.
Qed.

Lemma registered_attributes_are_resolved_witness :
  concrete (VFloat float_1e_3) = true
  /\ resolve (VFloat float_1e_3) 0%Z = VFloat float_1e_3.
Proof.
  split; [reflexivity |].
  apply (proj1 (proj2 (registered_attributes_are_resolved 0%Z))).
  reflexivity.
Defined.

(** The example script: the system it builds, with the values it passes. *)
Example example_system_elements :
  @system_prop_lens_prop unit (VTuple [VInt 256; VInt 256])
    (VFloat (4722366482869645 # 4722366482869645213696))
    (VFloat (5976627020719823 # 9444732965739290427392))
    (Some (VFloat float_1_0))
    (Some (VFloat (7378697629483821 # 147573952589676412928)))
    (Some (VFloat float_1e_3)) (Some (VFloat float_1e_3))
    (Some (VFloat (5764607523034235 # 1152921504606846976)))
    (Some (VFloat float_1_0)) (Some (VFloat float_1_0))
    (Some (VFloat (1 # 2)))
  = Ok {| OpticalSystem.elements :=
            [EGaussianPlaneWave
               (GaussianPlaneWave.new (VTuple [VInt 256; VInt 256])
                  (VFloat (4722366482869645 # 4722366482869645213696))
                  (VFloat (5976627020719823 # 9444732965739290427392))
                  (VFloat float_1_0)
                  (VFloat (7378697629483821 # 147573952589676412928))
                  (Some (VFloat float_1_0)) None None None None);
             EPropagate (Propagate.new (VFloat float_1e_3) (VFloat float_1_0));
             EThinLens
               (ThinLens.new
                  (VFloat (5764607523034235 # 1152921504606846976))
                  (VFloat float_1_0) (VFloat (1 # 2)));
             EPropagate (Propagate.new (VFloat float_1e_3) (VFloat float_1_0))] |}.
Proof. reflexivity. Qed.

(** * Further properties of the composer *)

Section Nesting.

Context {W : Type} (C : Collaborators W).

Lemma thread_nested (i0 : Element W) (irest post : list (Element W))
  (field : Value) (w : W) :
  OpticalSystem.thread C
    (as_element C {| OpticalSystem.elements := i0 :: irest |} :: post) field w
  = OpticalSystem.thread C ((i0 :: irest) ++ post) field w.
Proof.
  cbn [OpticalSystem.thread app call as_element].
  transitivity
    (bind (bind (call C i0 [field] []) (OpticalSystem.thread C irest))
       (OpticalSystem.thread C post) w); [reflexivity |].
  rewrite bind_assoc. apply bind_ext. intros v w'. symmetry. apply thread_app.
Qed.

End Nesting.

(** X1. A system used as an element of another system behaves as its own
    elements spliced in at that place, in first position and in any later
    position, provided the inner system is not empty; an empty inner system
    raises [IndexError] where splicing nothing would have handed the field
    on. *)
Theorem nested_system_is_spliced :
  forall (W : Type) (C : Collaborators W) (i0 e0 : Element W)
         (irest pre post : list (Element W)) (args : list Value)
         (kwargs : Kwargs) (field : Value) (w : W),
    OpticalSystem.__call__ C
      {| OpticalSystem.elements :=
           as_element C {| OpticalSystem.elements := i0 :: irest |} :: post |}
      args kwargs w
    = OpticalSystem.__call__ C
        {| OpticalSystem.elements := (i0 :: irest) ++ post |} args kwargs w
    /\ OpticalSystem.__call__ C
         {| OpticalSystem.elements :=
              e0 :: pre
              ++ as_element C {| OpticalSystem.elements := i0 :: irest |}
              :: post |}
         args kwargs w
       = OpticalSystem.__call__ C
           {| OpticalSystem.elements := e0 :: pre ++ (i0 :: irest) ++ post |}
           args kwargs w
    /\ OpticalSystem.thread C
         (as_element C {| OpticalSystem.elements := [] |} :: post) field w
       = (Raise IndexError, w)
    /\ OpticalSystem.thread C ([] ++ post) field w
       = OpticalSystem.thread C post field w.
Proof.
  intros W C i0 e0 irest pre post args kwargs field w.
  split; [| split; [| split; reflexivity]].
  - cbn [app]. rewrite !call_cons. cbn [call as_element].
    transitivity
      (bind (bind (call C i0 args kwargs) (OpticalSystem.thread C irest))
         (OpticalSystem.thread C post) w); [reflexivity |].
    rewrite bind_assoc. apply bind_ext. intros v w'. symmetry.
    apply thread_app.
  - rewrite !call_cons. apply bind_ext. intros v w'.
    rewrite !thread_app. apply bind_ext. intros v' w''. apply thread_nested.
Qed.

(** ** Arity of the source elements *)

Lemma bind_nothing_rejects (args : list Value) (kwargs : Kwargs) :
  args <> [] \/ kwargs <> [] -> bind_nothing args kwargs = Raise TypeError.
Proof.
  intros [H | H]; destruct args, kwargs; try reflexivity; contradiction H;
    reflexivity.
Qed.

Lemma no_argument_source_rejects {W} (C : Collaborators W) (e : Element W)
  (args : list Value) (kwargs : Kwargs) (w : W) :
  takes_no_argument e = true ->
  args <> [] \/ kwargs <> [] ->
  call C e args kwargs w = (Raise TypeError, w).
Proof.
  intros He H. apply bind_nothing_rejects in H.
  destruct e; try discriminate He; cbn [call];
    unfold PointSource.__call__, PlaneWave.__call__, GenericField.__call__,
      GaussianPlaneWave.__call__, bind, lift;
    rewrite H; reflexivity.
Qed.

(** X2. [PointSource], [PlaneWave], [GenericField] and [GaussianPlaneWave]
    take no argument: a system that starts with one of them and is invoked
    with any positional or keyword argument raises [TypeError] before any
    collaborator has run. *)
Theorem system_over_source_takes_no_argument :
  forall (W : Type) (C : Collaborators W) (e : Element W)
         (rest : list (Element W)) (args : list Value) (kwargs : Kwargs)
         (w : W),
    takes_no_argument e = true ->
    args <> [] \/ kwargs <> [] ->
    OpticalSystem.__call__ C {| OpticalSystem.elements := e :: rest |}
      args kwargs w
    = (Raise TypeError, w).
Proof.
  intros W C e rest args kwargs w He H. rewrite call_cons.
  apply bind_raise. apply no_argument_source_rejects; assumption.
Qed.

Lemma system_over_source_takes_no_argument_witness :
  takes_no_argument (@EGaussianPlaneWave unit generated_waist) = true
  /\ ([VInt 1] <> [] \/ @nil (string * Value) <> [])
  /\ OpticalSystem.__call__ (plain 0%Z)
       {| OpticalSystem.elements :=
            [EGaussianPlaneWave generated_waist; identity] |}
       [VInt 1] [] tt
     = (Raise TypeError, tt).
Proof.
  assert (H : [VInt 1] <> [] \/ @nil (string * Value) <> [])
    by (left; discriminate).
  split; [reflexivity |]. split; [exact H |].
  exact (system_over_source_takes_no_argument unit (plain 0%Z)
           (EGaussianPlaneWave generated_waist) [identity] [VInt 1] [] tt
           eq_refl H).
Defined.

(** X3. A source that takes no argument cannot stand after the first
    element: when the stages before it have returned, the invocation raises
    [TypeError] there, with the world as those stages left it. *)
Theorem source_after_first_raises :
  forall (W : Type) (C : Collaborators W) (e0 e : Element W)
         (pre post : list (Element W)) (args : list Value) (kwargs : Kwargs)
         (w w' : W) (v : Value),
    takes_no_argument e = true ->
    OpticalSystem.__call__ C {| OpticalSystem.elements := e0 :: pre |}
      args kwargs w = (Ok v, w') ->
    OpticalSystem.__call__ C
      {| OpticalSystem.elements := e0 :: pre ++ e :: post |} args kwargs w
    = (Raise TypeError, w').
Proof.
  intros W C e0 e pre post args kwargs w w' v He H.
  rewrite call_app. rewrite (bind_ok _ _ _ _ _ H).
  cbn [OpticalSystem.thread]. apply bind_raise.
  apply no_argument_source_rejects; [exact He | left; discriminate].
Qed.

Lemma source_after_first_raises_witness :
  takes_no_argument (@EGaussianPlaneWave unit generated_waist) = true
  /\ OpticalSystem.__call__ (plain 0%Z)
       {| OpticalSystem.elements := [constant (VInt 1)] |} [] [] tt
     = (Ok (VInt 1), tt)
  /\ OpticalSystem.__call__ (plain 0%Z)
       {| OpticalSystem.elements :=
            constant (VInt 1)
            :: [] ++ EGaussianPlaneWave generated_waist :: [identity] |}
       [] [] tt
     = (Raise TypeError, tt).
Proof.
  split; [reflexivity |]. split; [reflexivity |].
  exact (source_after_first_raises unit (plain 0%Z) (constant (VInt 1))
           (EGaussianPlaneWave generated_waist) [] [identity] [] [] tt tt
           (VInt 1) eq_refl eq_refl).
Defined.

(** X4. [ObjectivePointSource] accepts exactly one argument, positional or
    under the keyword [z]. Such a call is not rejected: under any
    collaborators it goes on to its first registration, that of [f], and the
    two shapes behave alike. Called in any other way it raises [TypeError]
    before any collaborator has run. *)
Theorem ObjectivePointSource_call_shapes :
  forall (W : Type) (C : Collaborators W) (self : ObjectivePointSource.t),
    (forall (z : Value) (w : W),
       ObjectivePointSource.__call__ C self [] [("z", z)] w
       = ObjectivePointSource.__call__ C self [z] [] w
       /\ exists (r : Result Value) (rest : list Event),
            snd (snd (ObjectivePointSource.__call__ (observe C) self [z] []
                        (w, [])))
            = Registered "f" (Some (ObjectivePointSource.f self)) r :: rest)
    /\ (forall (args : list Value) (kwargs : Kwargs) (w : W),
          (forall z : Value, ~ (args = [z] /\ kwargs = [])) ->
          (forall z : Value, ~ (args = [] /\ kwargs = [("z", z)])) ->
          ObjectivePointSource.__call__ C self args kwargs w
          = (Raise TypeError, w)
          /\ snd (snd (ObjectivePointSource.__call__ (observe C) self args
                         kwargs (w, [])))
             = []).
Proof.
  intros W C self. split.
  - intros z w. split; [reflexivity |].
    unfold ObjectivePointSource.__call__, bind, lift. cbn [bind_one].
    remember (ObjectivePointSource.getattr self) as attrs eqn:Hattrs.
    observed. repeat next_call; subst attrs; do 2 eexists; reflexivity.
  - intros args kwargs w Hpos Hkw.
    assert (H : bind_one "z" args kwargs = Raise TypeError).
    { destruct args as [| a [| a' args]];
        destruct kwargs as [| [k v] [| kv kwargs]]; try reflexivity.
      - cbn [bind_one]. destruct (String.eqb k "z") eqn:E; [| reflexivity].
        apply String.eqb_eq in E. subst k.
        exfalso. apply (Hkw v). auto.
      - exfalso. apply (Hpos a). auto. }
    unfold ObjectivePointSource.__call__, bind, lift. rewrite H.
    split; reflexivity.
Qed.

Lemma ObjectivePointSource_call_shapes_witness :
  let self :=
    ObjectivePointSource.new (VTuple [VInt 256; VInt 256]) (VFloat float_1e_3)
      (VFloat float_1e_3) (VFloat float_1_0) (VFloat float_1e_3)
      (VFloat float_1_0) (VFloat float_1_0) None None None None in
  (forall z : Value,
     ~ ([VInt 1; VInt 2] = [z] /\ @nil (string * Value) = []))
  /\ (forall z : Value,
        ~ ([VInt 1; VInt 2] = [] /\ @nil (string * Value) = [("z", z)]))
  /\ ObjectivePointSource.__call__ (@plain unit 0%Z) self [VInt 1; VInt 2] [] tt
     = (Raise TypeError, tt)
  /\ ObjectivePointSource.__call__ (@plain unit 0%Z) self [VInt 1] [] tt
     = (Ok a_field, tt).
Proof.
  intros self.
  assert (Hpos : forall z : Value,
             ~ ([VInt 1; VInt 2] = [z] /\ @nil (string * Value) = []))
    by (intros z [H _]; discriminate H).
  assert (Hkw : forall z : Value,
             ~ ([VInt 1; VInt 2] = [] /\ @nil (string * Value) = [("z", z)]))
    by (intros z [H _]; discriminate H).
  split; [exact Hpos |]. split; [exact Hkw |].
  split; [| reflexivity].
  exact (proj1 (proj2 (ObjectivePointSource_call_shapes unit (plain 0%Z) self)
                  [VInt 1; VInt 2] [] tt Hpos Hkw)).
Defined.

(** ** Every stage runs once, in order *)

Section Invocations.

Context (C : Collaborators (list Invocation)).

Lemma thread_probes_outcome (bs : list (list Value -> Kwargs -> Result Value)) :
  forall (i : nat) (field : Value) (log : list Invocation),
    fst (OpticalSystem.thread C (probes i bs) field log)
    = last_outcome (Ok field) (later_invocations i bs field).
Proof.
  induction bs as [| b bs IH]; intros i field log.
  - reflexivity.
  - cbn [probes OpticalSystem.thread later_invocations call last_outcome
         returned].
    unfold bind, probe.
    destruct (b [field] []) as [v | x]; [apply IH | reflexivity].
Qed.

End Invocations.

Lemma later_invocations_who (bs : list (list Value -> Kwargs -> Result Value)) :
  forall (i : nat) (field : Value),
    map who (later_invocations i bs field)
    = seq i (List.length (later_invocations i bs field)).
Proof.
  induction bs as [| b bs IH]; intros i field; [reflexivity |].
  cbn [later_invocations map who List.length seq]. f_equal.
  destruct (b [field] []) as [v | x]; [apply IH | reflexivity].
Qed.

Lemma later_invocations_length
  (bs : list (list Value -> Kwargs -> Result Value)) :
  forall (i : nat) (field : Value),
    (List.length (later_invocations i bs field) <= List.length bs)%nat.
Proof.
  induction bs as [| b bs IH]; intros i field; [apply le_n |].
  cbn [later_invocations List.length].
  destruct (b [field] []) as [v | x].
  - specialize (IH (S i) v). lia.
  - cbn. lia.
Qed.

Lemma later_invocations_complete
  (bs : list (list Value -> Kwargs -> Result Value)) :
  forall (i : nat) (field v : Value),
    last_outcome (Ok field) (later_invocations i bs field) = Ok v ->
    List.length (later_invocations i bs field) = List.length bs.
Proof.
  induction bs as [| b bs IH]; intros i field v H; [reflexivity |].
  cbn [later_invocations List.length last_outcome returned] in *.
  destruct (b [field] []) as [u | x].
  - f_equal. apply (IH (S i) u v H).
  - discriminate H.
Qed.

Lemma later_invocations_inner_ok
  (bs : list (list Value -> Kwargs -> Result Value)) :
  forall (i : nat) (field : Value) (j : nat) (inv : Invocation),
    nth_error (later_invocations i bs field) j = Some inv ->
    (S j < List.length (later_invocations i bs field))%nat ->
    exists v : Value, returned inv = Ok v.
Proof.
  induction bs as [| b bs IH]; intros i field j inv H Hlt.
  - destruct j; discriminate H.
  - cbn [later_invocations List.length] in *.
    destruct (b [field] []) as [u | x] eqn:E.
    + destruct j as [| j].
      * injection H as <-. cbn. eauto.
      * cbn [nth_error] in H. apply (IH (S i) u j inv H). lia.
    + cbn in Hlt. lia.
Qed.

(** X5. No stage is skipped or repeated. Seen from the elements, they are
    invoked in list order, each at most once, starting with the first; every
    stage but the last invoked one has returned; the outcome of the
    invocation is the outcome of the last invoked stage; and when the
    invocation returns, every element of the list has been invoked. *)
Theorem stages_run_once_in_order :
  forall (C : Collaborators (list Invocation))
         (b0 : list Value -> Kwargs -> Result Value)
         (bs : list (list Value -> Kwargs -> Result Value))
         (args : list Value) (kwargs : Kwargs),
    let out :=
      OpticalSystem.__call__ C
        {| OpticalSystem.elements := probes 0 (b0 :: bs) |} args kwargs [] in
    let log := snd out in
    map who log = seq 0 (List.length log)
    /\ (1 <= List.length log <= S (List.length bs))%nat
    /\ (forall d : Result Value, last_outcome d log = fst out)
    /\ (forall v : Value,
          fst out = Ok v -> List.length log = S (List.length bs))
    /\ (forall (i : nat) (inv : Invocation),
          nth_error log i = Some inv ->
          (S i < List.length log)%nat ->
          exists v : Value, returned inv = Ok v).
Proof.
  intros C b0 bs args kwargs out log.
  assert (Hout : fst out
                 = match b0 args kwargs with
                   | Ok v => last_outcome (Ok v) (later_invocations 1 bs v)
                   | Raise x => Raise x
                   end).
  { subst out. cbn [probes]. rewrite call_cons. cbn [call].
    unfold bind, probe. destruct (b0 args kwargs) as [v | x];
      [apply thread_probes_outcome | reflexivity]. }
  assert (Hlog : log
                 = {| who := 0; positional := args; keywords := kwargs;
                      returned := b0 args kwargs |}
                   :: match b0 args kwargs with
                      | Ok v => later_invocations 1 bs v
                      | Raise _ => []
                      end) by apply call_probes.
  rewrite Hout, Hlog. clear Hout Hlog.
  destruct (b0 args kwargs) as [v0 | x] eqn:E;
    cbn [map who List.length seq last_outcome returned].
  - pose proof (later_invocations_length bs 1 v0) as Hlen.
    split; [f_equal; apply later_invocations_who |].
    split; [lia |]. split; [reflexivity |].
    split.
    + intros v H. f_equal. apply (later_invocations_complete bs 1 v0 v H).
    + intros [| i] inv H Hlt.
      * injection H as <-. cbn. eauto.
      * cbn [nth_error] in H.
        apply (later_invocations_inner_ok bs 1 v0 i inv H). lia.
  - split; [reflexivity |]. split; [lia |]. split; [reflexivity |].
    split; [intros v H; discriminate H |].
    intros i inv H Hlt. cbn in Hlt. lia.
Qed.

Lemma stages_run_once_in_order_witness :
  let b0 : list Value -> Kwargs -> Result Value := fun _ _ => Ok (VInt 1) in
  let b1 : list Value -> Kwargs -> Result Value := fun _ _ => Ok (VInt 2) in
  let out :=
    OpticalSystem.__call__ (plain 0%Z)
      {| OpticalSystem.elements := probes 0 [b0; b1] |} [] [] [] in
  fst out = Ok (VInt 2) /\ List.length (snd out) = 2%nat.
Proof.
  intros b0 b1 out. split; [reflexivity |].
  apply (proj1 (proj2 (proj2 (proj2
           (stages_run_once_in_order (plain 0%Z) b0 [b1] [] [])))) (VInt 2)).
  reflexivity.
Defined.

(** * Further properties of the source elements *)

Ltac next_source_call :=
  match goal with
  | |- context [register ?C ?s ?n ?w] =>
      destruct (register C s n w) as [[? | ?] ?]; settle_log
  | |- context [point_source ?C ?a ?w] =>
      destruct (point_source C a w) as [[? | ?] ?]; settle_log
  | |- context [objective_point_source ?C ?a ?w] =>
      destruct (objective_point_source C a w) as [[? | ?] ?]; settle_log
  | |- context [plane_wave ?C ?a ?w] =>
      destruct (plane_wave C a w) as [[? | ?] ?]; settle_log
  | |- context [generic_field ?C ?a ?w] =>
      destruct (generic_field C a w) as [[? | ?] ?]; settle_log
  | |- context [gaussian_plane_wave ?C ?a ?w] =>
      destruct (gaussian_plane_wave C a w) as [[? | ?] ?]; settle_log
  end.

Ltac observed_source :=
  cbn [observe register point_source objective_point_source plane_wave
       generic_field gaussian_plane_wave];
  unfold observe_register, observe_generator; settle_log.

Ltac enter_source :=
  cbn [call];
  unfold PointSource.__call__, ObjectivePointSource.__call__,
    PlaneWave.__call__, GenericField.__call__, GaussianPlaneWave.__call__,
    bind, lift.

(** X6. Under any collaborators, a call of a source element first asks
    [register] for attributes, one after the other, and stops at the first
    registration that raises; only when all have succeeded does it call a
    generator, once, as the last thing it does, and that generator is the
    one of its own class. A call that returns has called its generator. *)
Theorem source_call_protocol :
  forall (W : Type) (C : Collaborators W) (e : Element (W * list Event))
         (name : string),
    generator_of e = Some name ->
    forall (args : list Value) (kwargs : Kwargs) (w : W),
      let out := call (observe C) e args kwargs (w, []) in
      let log := snd (snd out) in
      source_protocol name log = true
      /\ forall v : Value,
           fst out = Ok v -> exists a : list Value, generator_args log = [a].
Proof.
  intros W C e name He args kwargs w out log. subst log out.
  destruct e as [m | m | m | m | m | m | m | f]; try discriminate He;
    injection He as <-; enter_source.
  - set (attrs := PointSource.getattr m). clearbody attrs.
    destruct (bind_nothing args kwargs) as [[] | x];
      [observed_source | settle_log]; repeat next_source_call;
      (split; [reflexivity | intros v H; try discriminate H]);
      eexists; reflexivity.
  - set (attrs := ObjectivePointSource.getattr m). clearbody attrs.
    destruct (bind_one "z" args kwargs) as [z | x];
      [observed_source | settle_log]; repeat next_source_call;
      (split; [reflexivity | intros v H; try discriminate H]);
      eexists; reflexivity.
  - set (attrs := PlaneWave.getattr m). clearbody attrs.
    destruct (bind_nothing args kwargs) as [[] | x];
      [observed_source | settle_log]; repeat next_source_call;
      (split; [reflexivity | intros v H; try discriminate H]);
      eexists; reflexivity.
  - set (attrs := GenericField.getattr m). clearbody attrs.
    destruct (bind_nothing args kwargs) as [[] | x];
      [observed_source | settle_log]; repeat next_source_call;
      (split; [reflexivity | intros v H; try discriminate H]);
      eexists; reflexivity.
  - set (attrs := GaussianPlaneWave.getattr m). clearbody attrs.
    destruct (bind_nothing args kwargs) as [[] | x];
      [observed_source | settle_log]; repeat next_source_call;
      (split; [reflexivity | intros v H; try discriminate H]);
      eexists; reflexivity.
Qed.

Lemma source_call_protocol_witness :
  generator_of (@EGaussianPlaneWave (unit * list Event) generated_waist)
  = Some "gaussian_plane_wave"
  /\ source_protocol "gaussian_plane_wave"
       (events_of 0%Z (EGaussianPlaneWave generated_waist) [] []) = true.
Proof.
  split; [reflexivity |].
  exact (proj1 (source_call_protocol unit (plain 0%Z)
                  (EGaussianPlaneWave generated_waist) "gaussian_plane_wave"
                  eq_refl [] [] tt)).
Defined.

(** X7. Every name a source element hands to [register] is the name of a
    field of its class: under any collaborators, [getattr] finds each
    attribute that [register] is asked for. *)
Theorem registered_names_are_fields :
  forall (W : Type) (C : Collaborators W) (e : Element (W * list Event))
         (name : string),
    generator_of e = Some name ->
    forall (args : list Value) (kwargs : Kwargs) (w : W),
      registrations_found
        (snd (snd (call (observe C) e args kwargs (w, [])))) = true.
Proof.
  intros W C e name He args kwargs w.
  destruct e as [m | m | m | m | m | m | m | f]; try discriminate He;
    clear He; enter_source.
  - remember (PointSource.getattr m) as attrs eqn:Hattrs.
    destruct (bind_nothing args kwargs) as [[] | x];
      [observed_source | settle_log]; repeat next_source_call;
      subst attrs; reflexivity.
  - remember (ObjectivePointSource.getattr m) as attrs eqn:Hattrs.
    destruct (bind_one "z" args kwargs) as [z | x];
      [observed_source | settle_log]; repeat next_source_call;
      subst attrs; reflexivity.
  - remember (PlaneWave.getattr m) as attrs eqn:Hattrs.
    destruct (bind_nothing args kwargs) as [[] | x];
      [observed_source | settle_log]; repeat next_source_call;
      subst attrs; reflexivity.
  - remember (GenericField.getattr m) as attrs eqn:Hattrs.
    destruct (bind_nothing args kwargs) as [[] | x];
      [observed_source | settle_log]; repeat next_source_call;
      subst attrs; reflexivity.
  - remember (GaussianPlaneWave.getattr m) as attrs eqn:Hattrs.
    destruct (bind_nothing args kwargs) as [[] | x];
      [observed_source | settle_log]; repeat next_source_call;
      subst attrs; reflexivity.
Qed.

Lemma registered_names_are_fields_witness :
  generator_of (@EGaussianPlaneWave (unit * list Event) generated_waist)
  = Some "gaussian_plane_wave"
  /\ registrations_found
       (events_of 0%Z (EGaussianPlaneWave generated_waist) [] []) = true.
Proof.
  split; [reflexivity |].
  exact (registered_names_are_fields unit (plain 0%Z)
           (EGaussianPlaneWave generated_waist) "gaussian_plane_wave"
           eq_refl [] [] tt).
Defined.

(** * Statelessness of the element classes *)

Section StatelessComputations.

Context {W : Type}.

Lemma lift_stateless {A} (r : Result A) : stateless_m (@lift W A r).
Proof. intros w. split; reflexivity. Qed.

Lemma bind_stateless {A B} (m : M W A) (k : A -> M W B) :
  stateless_m m -> (forall a, stateless_m (k a)) -> stateless_m (bind m k).
Proof.
  intros Hm Hk w. unfold bind.
  destruct (Hm w) as [Hw Hr].
  destruct (m w) as [r w1] eqn:E. cbn in Hw. subst w1. split.
  - destruct r as [a | x]; [apply Hk | reflexivity].
  - intros w'. specialize (Hr w'). destruct (Hm w') as [Hw' _].
    destruct (m w') as [r' w1']. cbn in Hr, Hw'. subst.
    destruct r as [a | x]; [apply Hk | reflexivity].
Qed.

Lemma instance_stateless (C : Collaborators W) (e : Element W) :
  stateless_collaborators C -> is_instance e = true -> stateless C e.
Proof.
  intros (Hreg & Hps & Hops & Hpw & Hgf & Hgpw & Hprop & Hlens) He args kwargs.
  change (stateless_m (call C e args kwargs)).
  destruct e as [m | m | m | m | m | m | m | f]; try discriminate He;
    cbn [call];
    repeat (apply bind_stateless;
            [first [apply lift_stateless | apply Hreg] | intros ?]);
    auto.
Qed.

Lemma instances_stateless (C : Collaborators W) (es : list (Element W)) :
  stateless_collaborators C ->
  forallb is_instance es = true -> Forall (stateless C) es.
Proof.
  intros HC. induction es as [| e es IH]; intros H; [constructor |].
  cbn [forallb] in H. apply andb_prop in H as [He Hes].
  constructor; [apply instance_stateless; assumption | apply IH; exact Hes].
Qed.

End StatelessComputations.

Lemma plain_stateless {W} (context : PRNGKey) :
  stateless_collaborators (@plain W context).
Proof.
  repeat split; cbn; unfold register_spec, pass_through, lift, ret, raise;
    try reflexivity;
    try (match goal with
         | |- context [match ?x with _ => _ end] => destruct x
         end; reflexivity).
Qed.

(** * The factory and the composer together *)

Ltac next_stage C :=
  match goal with
  | |- context [register C ?s ?n ?w] =>
      destruct (register C s n w) as [[? | ?] ?]
  | |- context [gaussian_plane_wave C ?a ?w] =>
      destruct (gaussian_plane_wave C a w) as [[? | ?] ?]
  | |- context [Propagate_call C ?m ?a ?k ?w] =>
      destruct (Propagate_call C m a k w) as [[? | ?] ?]
  | |- context [ThinLens_call C ?m ?a ?k ?w] =>
      destruct (ThinLens_call C m a k w) as [[? | ?] ?]
  end; cbv beta iota; try reflexivity.

(** X9. The system [system_prop_lens_prop] builds, for any parameters and
    under any collaborators. Invoked without arguments it registers [kykx],
    [power] and [amplitude] of its source, calls [gaussian_plane_wave] with
    the configured sampling, waist and defaults, and hands the field to
    [Propagate(z1, n)], then to [ThinLens(f, n, NA)], then to
    [Propagate(z2, n)], each stage receiving the output of the one before as
    its only argument, and stopping at the first that raises. Invoked with
    any argument it raises [TypeError] before any collaborator has run. Over
    collaborators that neither read nor write the world it does neither. *)
Theorem system_prop_lens_prop_invocation :
  forall (W : Type) (C : Collaborators W) (shape dx spectrum : Value)
         (spectral_density waist z1 z2 f n power NA : option Value),
  exists sys : OpticalSystem.t W,
    system_prop_lens_prop shape dx spectrum
      spectral_density waist z1 z2 f n power NA = Ok sys
    /\ (forall w : W,
          OpticalSystem.__call__ C sys [] [] w
          = (let source :=
               GaussianPlaneWave.getattr
                 (GaussianPlaneWave.new shape dx spectrum
                    (default (VFloat float_1_0) spectral_density)
                    (default (VFloat float_1e_3) waist)
                    (Some (default (VFloat float_1_0) power))
                    None None None None) in
             let index := default (VFloat float_1_0) n in
             kykx <- register C source "kykx" ;;
             power' <- register C source "power" ;;
             amplitude <- register C source "amplitude" ;;
             field0 <- gaussian_plane_wave C
                         [shape; dx; spectrum;
                          default (VFloat float_1_0) spectral_density;
                          default (VFloat float_1e_3) waist;
                          power'; amplitude; kykx; VNone; VBool true] ;;
             field1 <- Propagate_call C
                         (Propagate.new (default (VFloat float_1e_3) z1) index)
                         [field0] [] ;;
             field2 <- ThinLens_call C
                         (ThinLens.new (default (VFloat float_1e_3) f) index
                            (default VNone NA))
                         [field1] [] ;;
             Propagate_call C
               (Propagate.new (default (VFloat float_1e_3) z2) index)
               [field2] []) w)
    /\ (forall (args : list Value) (kwargs : Kwargs) (w : W),
          args <> [] \/ kwargs <> [] ->
          OpticalSystem.__call__ C sys args kwargs w = (Raise TypeError, w))
    /\ (stateless_collaborators C ->
        forall (args : list Value) (kwargs : Kwargs) (w : W),
          snd (OpticalSystem.__call__ C sys args kwargs w) = w
          /\ forall w' : W,
               fst (OpticalSystem.__call__ C sys args kwargs w')
               = fst (OpticalSystem.__call__ C sys args kwargs w)).
Proof.
  intros. unfold system_prop_lens_prop, OpticalSystem.new. cbv zeta.
  eexists. split; [reflexivity |]. split; [| split].
  - intros w. rewrite call_cons. cbn [call OpticalSystem.thread].
    unfold GaussianPlaneWave.__call__, bind, lift, ret.
    cbn [bind_nothing]. cbv zeta.
    set (source := GaussianPlaneWave.getattr _).
    cbn [GaussianPlaneWave.new GaussianPlaneWave.shape GaussianPlaneWave.dx
         GaussianPlaneWave.spectrum GaussianPlaneWave.spectral_density
         GaussianPlaneWave.waist GaussianPlaneWave.pupil
         GaussianPlaneWave.scalar default].
    repeat next_stage C.
  - intros args kwargs w H. rewrite call_cons. apply bind_raise.
    apply no_argument_source_rejects; [reflexivity | exact H].
  - intros HC args kwargs w. apply system_stateless.
    apply instances_stateless; [exact HC | reflexivity].
Qed.

Lemma system_prop_lens_prop_invocation_witness :
  ([VInt 1] <> [] \/ @nil (string * Value) <> [])
  /\ stateless_collaborators (@plain nat 0%Z)
  /\ exists sys : OpticalSystem.t nat,
       system_prop_lens_prop (VTuple [VInt 256; VInt 256]) (VFloat float_1e_3)
         (VFloat float_1e_3) None None None None None None None None = Ok sys
       /\ OpticalSystem.__call__ (plain 0%Z) sys [VInt 1] [] 3%nat
          = (Raise TypeError, 3%nat)
       /\ OpticalSystem.__call__ (plain 0%Z) sys [] [] 3%nat
          = (Ok a_field, 3%nat).
Proof.
  assert (H : [VInt 1] <> [] \/ @nil (string * Value) <> [])
    by (left; discriminate).
  split; [exact H |]. split; [apply plain_stateless |].
  destruct (system_prop_lens_prop_invocation nat (plain 0%Z)
              (VTuple [VInt 256; VInt 256]) (VFloat float_1e_3)
              (VFloat float_1e_3) None None None None None None None None)
    as (sys & Hsys & Hrun & Hargs & Hstate).
  exists sys. split; [exact Hsys |]. split; [exact (Hargs [VInt 1] [] 3%nat H) |].
  injection Hsys as <-.
  pose proof (Hstate (plain_stateless 0%Z) [] [] 3%nat) as [Hw _].
  reflexivity.
Defined.

(** X10. Concatenating element lists composes systems: a system over
    [(e0 :: pre) ++ (p0 :: post)] behaves as the system over [e0 :: pre]
    followed by the system over [p0 :: post] invoked on its result as only
    argument. *)
Theorem concatenation_composes_systems :
  forall (W : Type) (C : Collaborators W) (e0 p0 : Element W)
         (pre post : list (Element W)) (args : list Value) (kwargs : Kwargs)
         (w : W),
    OpticalSystem.__call__ C
      {| OpticalSystem.elements := (e0 :: pre) ++ (p0 :: post) |} args kwargs w
    = (field <- OpticalSystem.__call__ C
                  {| OpticalSystem.elements := e0 :: pre |} args kwargs ;;
       OpticalSystem.__call__ C
         {| OpticalSystem.elements := p0 :: post |} [field] []) w.
Proof.
  intros W C e0 p0 pre post args kwargs w.
  cbn [app]. rewrite call_app. apply bind_ext. intros v w'. reflexivity.
Qed.

(** * Where the registered values go *)

Ltac no_generator_called H :=
  cbn [In] in H;
  repeat (destruct H as [H | H]; [discriminate H |]);
  contradiction H.

(** X11. Under any collaborators, whenever a call of [PointSource],
    [PlaneWave], [GenericField] or [GaussianPlaneWave] reaches its generator,
    every attribute it asked [register] for was found and registered, and the
    generator receives each registered value at the place of its attribute
    and every other field of the element as it is stored. *)
Theorem sources_pass_registered_values_in_place :
  forall (W : Type) (C : Collaborators W) (w : W) (callee : string)
         (a : list Value),
    (forall self : PointSource.t,
       let log :=
         snd (snd (PointSource.__call__ (observe C) self [] [] (w, []))) in
       In (Called callee a) log ->
       exists power z n amplitude : Value,
         log =
         [Registered "power" (Some (PointSource.power self)) (Ok power);
          Registered "z" (Some (PointSource.z self)) (Ok z);
          Registered "n" (Some (PointSource.n self)) (Ok n);
          Registered "amplitude" (Some (PointSource.amplitude self))
            (Ok amplitude);
          Called "point_source"
            [PointSource.shape self; PointSource.dx self;
             PointSource.spectrum self; PointSource.spectral_density self;
             z; n; power; amplitude; PointSource.pupil self;
             PointSource.scalar self; PointSource.epsilon self]])
    /\ (forall self : PlaneWave.t,
          let log :=
            snd (snd (PlaneWave.__call__ (observe C) self [] [] (w, []))) in
          In (Called callee a) log ->
          exists kykx power amplitude : Value,
            log =
            [Registered "kykx" (Some (PlaneWave.kykx self)) (Ok kykx);
             Registered "power" (Some (PlaneWave.power self)) (Ok power);
             Registered "amplitude" (Some (PlaneWave.amplitude self))
               (Ok amplitude);
             Called "plane_wave"
               [PlaneWave.shape self; PlaneWave.dx self;
                PlaneWave.spectrum self; PlaneWave.spectral_density self;
                power; amplitude; kykx; PlaneWave.pupil self;
                PlaneWave.scalar self]])
    /\ (forall self : GenericField.t,
          let log :=
            snd (snd (GenericField.__call__ (observe C) self [] [] (w, []))) in
          In (Called callee a) log ->
          exists amplitude phase power : Value,
            log =
            [Registered "amplitude" (Some (GenericField.amplitude self))
               (Ok amplitude);
             Registered "phase" (Some (GenericField.phase self)) (Ok phase);
             Registered "power" (Some (GenericField.power self)) (Ok power);
             Called "generic_field"
               [GenericField.dx self; GenericField.spectrum self;
                GenericField.spectral_density self; amplitude; phase; power;
                GenericField.pupil self; GenericField.scalar self]])
    /\ (forall self : GaussianPlaneWave.t,
          let log :=
            snd (snd (GaussianPlaneWave.__call__ (observe C) self [] []
                        (w, []))) in
          In (Called callee a) log ->
          exists kykx power amplitude : Value,
            log =
            [Registered "kykx" (Some (GaussianPlaneWave.kykx self)) (Ok kykx);
             Registered "power" (Some (GaussianPlaneWave.power self))
               (Ok power);
             Registered "amplitude" (Some (GaussianPlaneWave.amplitude self))
               (Ok amplitude);
             Called "gaussian_plane_wave"
               [GaussianPlaneWave.shape self; GaussianPlaneWave.dx self;
                GaussianPlaneWave.spectrum self;
                GaussianPlaneWave.spectral_density self;
                GaussianPlaneWave.waist self; power; amplitude; kykx;
                GaussianPlaneWave.pupil self;
                GaussianPlaneWave.scalar self]]).
Proof.
  intros W C w callee a. repeat split; intros self log; subst log.
  - unfold PointSource.__call__, bind, lift. cbn [bind_nothing].
    remember (PointSource.getattr self) as attrs eqn:Hattrs.
    observed_source. repeat next_source_call; intros H;
      try no_generator_called H; subst attrs; repeat eexists.
  - unfold PlaneWave.__call__, bind, lift. cbn [bind_nothing].
    remember (PlaneWave.getattr self) as attrs eqn:Hattrs.
    observed_source. repeat next_source_call; intros H;
      try no_generator_called H; subst attrs; repeat eexists.
  - unfold GenericField.__call__, bind, lift. cbn [bind_nothing].
    remember (GenericField.getattr self) as attrs eqn:Hattrs.
    observed_source. repeat next_source_call; intros H;
      try no_generator_called H; subst attrs; repeat eexists.
  - unfold GaussianPlaneWave.__call__, bind, lift. cbn [bind_nothing].
    remember (GaussianPlaneWave.getattr self) as attrs eqn:Hattrs.
    observed_source. repeat next_source_call; intros H;
      try no_generator_called H; subst attrs; repeat eexists.
Qed.

Lemma sources_pass_registered_values_in_place_witness :
  let a :=
    [VTuple [VInt 256; VInt 256]; VFloat float_1e_3; VFloat float_1e_3;
     VFloat float_1_0; GaussianPlaneWave.waist generated_waist;
     VFloat float_1_0; VFloat float_1_0;
     VTuple [VFloat float_0_0; VFloat float_0_0]; VNone; VBool true] in
  let log :=
    snd (snd (GaussianPlaneWave.__call__ (observe (@plain unit 0%Z))
                generated_waist [] [] (tt, []))) in
  In (Called "gaussian_plane_wave" a) log
  /\ exists kykx power amplitude : Value,
       log =
       [Registered "kykx" (Some (GaussianPlaneWave.kykx generated_waist))
          (Ok kykx);
        Registered "power" (Some (GaussianPlaneWave.power generated_waist))
          (Ok power);
        Registered "amplitude"
          (Some (GaussianPlaneWave.amplitude generated_waist)) (Ok amplitude);
        Called "gaussian_plane_wave"
          [GaussianPlaneWave.shape generated_waist;
           GaussianPlaneWave.dx generated_waist;
           GaussianPlaneWave.spectrum generated_waist;
           GaussianPlaneWave.spectral_density generated_waist;
           GaussianPlaneWave.waist generated_waist; power; amplitude; kykx;
           GaussianPlaneWave.pupil generated_waist;
           GaussianPlaneWave.scalar generated_waist]].
Proof.
  intros a log.
  assert (H : In (Called "gaussian_plane_wave" a) log)
    by (do 3 right; left; reflexivity).
  split; [exact H |].
  exact (proj2 (proj2 (proj2
           (sources_pass_registered_values_in_place unit (plain 0%Z) tt
              "gaussian_plane_wave" a))) generated_waist H).
Defined.
